(** * Air-quality monitor, ESP32 side: serial framing, command parsing,
      sensor store and JSON snapshot

    A shallow embedding of [src/esp32/src/esp32.cpp].  The three functions
    of interest are [readArduinoData] (bytes to complete messages),
    [parseArduinoData] (message to store update) and [handleData] (store to
    JSON response).  The sketch keeps its state in globals ([sensorData],
    [serialBuffer], the function-static [ffCount]); here they are the
    fields of an explicit [World] record passed through every call.

    [millis()] is an input of the environment: every function that calls
    it takes the value it would read as the argument [now].  The debug
    output on [Serial] is not part of the state. *)

From Stdlib Require Import ZArith List String Ascii Bool Lia.
From Stdlib.Strings Require Import Byte.
From Stdlib Require Import DecimalString DecimalZ.
Import ListNotations.

Local Open Scope string_scope.
Local Open Scope Z_scope.

(** ** The Arduino [String] operations the sketch uses *)

Module ArduinoString.

(** [s.startsWith(p)] *)
Definition startsWith (s p : string) : bool := String.prefix p s.

(** [s.substring(left)]: the characters from index [left] to the end,
    the empty string when [left] is past the end. *)
Fixpoint substring (s : string) (left : nat) {struct left} : string :=
  match left, s with
  | O, _ => s
  | S _, EmptyString => EmptyString
  | S k, String _ t => substring t k
  end.

(** [isspace] in the C locale. *)
Definition isspace (c : ascii) : bool :=
  match c with
  | " "%char | "009"%char | "010"%char | "011"%char | "012"%char
  | "013"%char => true
  | _ => false
  end.

(** The value of a decimal digit character, ['0'] to ['9']. *)
Definition digit_of (c : ascii) : option Z :=
  let n := Z.of_N (N_of_ascii c) in
  if (48 <=? n) && (n <=? 57) then Some (n - 48) else None.

Fixpoint skip_space (s : string) : string :=
  match s with
  | String c t => if isspace c then skip_space t else s
  | EmptyString => s
  end.

(** The digits at the head of [s], accumulated in base 10 from [acc];
    conversion stops at the first character that is not a digit. *)
Fixpoint digits (acc : Z) (s : string) : Z :=
  match s with
  | String c t =>
      match digit_of c with
      | Some d => digits (10 * acc + d) t
      | None => acc
      end
  | EmptyString => acc
  end.

Definition LONG_MAX : Z := 2147483647.
Definition LONG_MIN : Z := -2147483648.

Definition saturate (z : Z) : Z :=
  if z <? LONG_MIN then LONG_MIN
  else if LONG_MAX <? z then LONG_MAX
  else z.

(** The optional sign in front of the digits: whether it is a minus, and
    the text after it. *)
Definition take_sign (s : string) : bool * string :=
  match s with
  | String c t =>
      if Ascii.eqb c "-" then (true, t)
      else if Ascii.eqb c "+" then (false, t)
      else (false, s)
  | EmptyString => (false, s)
  end.

(** [s.toInt()] is [atol] of the character buffer, which on the ESP32
    toolchain is [strtol(s, NULL, 10)]: leading white space is skipped,
    one sign is taken, then the longest run of decimal digits is
    converted; no digits at all gives 0; a value outside the 32-bit
    [long] saturates at [LONG_MAX] or [LONG_MIN].  The result is stored
    in an [int] of the same width. *)
Definition toInt (s : string) : Z :=
  let '(neg, t) := take_sign (skip_space s) in
  let acc := digits 0 t in
  saturate (if neg then - acc else acc).

End ArduinoString.

Import ArduinoString.

(** ** Sensor data structure *)

Record SensorData := mkSensorData {
  co2 : Z;
  pm25 : Z;
  o3 : Z;
  temp : Z;
  hum : Z;
  tvoc : Z;
  lastUpdate : Z
}.

(** The global [sensorData] as its member initialisers leave it. *)
Definition sensorData0 : SensorData :=
  {| co2 := 0; pm25 := 0; o3 := 0; temp := 0; hum := 0; tvoc := 0;
     lastUpdate := 0 |}.

(** ** parseArduinoData *)

(** Parses one complete message and updates the store; [now] is the
    reading of [millis()] taken in the branch that accepts. *)
Definition parseArduinoData (now : Z) (data : string) (sd : SensorData)
  : SensorData :=
  if startsWith data "co2V.val=" then
    let value := toInt (substring data 9) in
    if (value >? 0) && (value <? 10000) then
      {| co2 := value; pm25 := pm25 sd; o3 := o3 sd; temp := temp sd;
         hum := hum sd; tvoc := tvoc sd; lastUpdate := now |}
    else sd
  else if startsWith data "pm25V.val=" then
    let value := toInt (substring data 10) in
    if (value >=? 0) && (value <? 2000) then
      {| co2 := co2 sd; pm25 := value; o3 := o3 sd; temp := temp sd;
         hum := hum sd; tvoc := tvoc sd; lastUpdate := now |}
    else sd
  else if startsWith data "o3V.val=" then
    let value := toInt (substring data 8) in
    if (value >=? 0) && (value <? 2000) then
      {| co2 := co2 sd; pm25 := pm25 sd; o3 := value; temp := temp sd;
         hum := hum sd; tvoc := tvoc sd; lastUpdate := now |}
    else sd
  else if startsWith data "tempV.val=" then
    let value := toInt (substring data 10) in
    if (value >=? -50) && (value <? 100) then
      {| co2 := co2 sd; pm25 := pm25 sd; o3 := o3 sd; temp := value;
         hum := hum sd; tvoc := tvoc sd; lastUpdate := now |}
    else sd
  else if startsWith data "humV.val=" then
    let value := toInt (substring data 9) in
    if (value >=? 0) && (value <=? 100) then
      {| co2 := co2 sd; pm25 := pm25 sd; o3 := o3 sd; temp := temp sd;
         hum := value; tvoc := tvoc sd; lastUpdate := now |}
    else sd
  else if startsWith data "tvocV.val=" then
    let value := toInt (substring data 10) in
    if (value >=? 0) && (value <? 2000) then
      {| co2 := co2 sd; pm25 := pm25 sd; o3 := o3 sd; temp := temp sd;
         hum := hum sd; tvoc := value; lastUpdate := now |}
    else sd
  else sd.

(** ** readArduinoData *)

(** The globals the loop works on.  [ffCount] is an [int] that the loop
    keeps between 0 and 2 from one iteration to the next
    ([readByte_count]), far from its wrap-around, so it is a plain [Z];
    the fields of [SensorData] only ever receive results of [toInt],
    which fit an [int]. *)
Record World := mkWorld {
  sensorData : SensorData;
  serialBuffer : string;
  ffCount : Z
}.

Definition world0 : World :=
  {| sensorData := sensorData0; serialBuffer := ""; ffCount := 0 |}.

Definition strlen (s : string) : Z := Z.of_nat (String.length s).

(** The overflow check that closes every iteration of the loop. *)
Definition overflowCheck (w : World) : World :=
  if strlen (serialBuffer w) >? 100 then
    {| sensorData := sensorData w; serialBuffer := ""; ffCount := 0 |}
  else w.

(** One iteration of the [while] loop: the byte read from the UART, the
    world after it, and the message handed to [parseArduinoData] in this
    iteration, if there is one. *)
Definition readByte (now : Z) (inByte : byte) (w : World)
  : World * option string :=
  let '(w1, emitted) :=
    if (Byte.to_N inByte =? 255)%N then
      let ffCount1 := ffCount w + 1 in
      if ffCount1 >=? 3 then
        if strlen (serialBuffer w) >? 0 then
          ({| sensorData :=
                parseArduinoData now (serialBuffer w) (sensorData w);
              serialBuffer := "";
              ffCount := 0 |},
           Some (serialBuffer w))
        else
          ({| sensorData := sensorData w; serialBuffer := serialBuffer w;
              ffCount := 0 |},
           None)
      else
        ({| sensorData := sensorData w; serialBuffer := serialBuffer w;
            ffCount := ffCount1 |},
         None)
    else
      if (32 <=? Byte.to_N inByte)%N && (Byte.to_N inByte <=? 126)%N then
        ({| sensorData := sensorData w;
            serialBuffer :=
              serialBuffer w ++ String (ascii_of_byte inByte) "";
            ffCount := 0 |},
         None)
      else
        ({| sensorData := sensorData w; serialBuffer := serialBuffer w;
            ffCount := 0 |},
         None)
  in
  (overflowCheck w1, emitted).

(** The loop itself, over the bytes available on the UART, each paired
    with the clock reading at the moment it is processed.  The result is
    the final world and the messages handed to the parser, in order. *)
Fixpoint readArduinoData (avail : list (Z * byte)) (w : World)
  : World * list string :=
  match avail with
  | [] => (w, [])
  | (now, inByte) :: rest =>
      let '(w1, m) := readByte now inByte w in
      let '(w2, ms) := readArduinoData rest w1 in
      (w2, match m with Some d => d :: ms | None => ms end)
  end.

(** ** handleData *)

(** A [JsonDocument] holding an object with integer members, in insertion
    order.  [doc[key] = value] replaces the member [key] when the object
    has one and adds it at the end otherwise. *)
Module Json.

Definition JsonDocument := list (string * Z).

Definition empty : JsonDocument := [].

Fixpoint set (doc : JsonDocument) (key : string) (value : Z)
  : JsonDocument :=
  match doc with
  | [] => [(key, value)]
  | (k, v) :: rest =>
      if String.eqb k key then (k, value) :: rest
      else (k, v) :: set rest key value
  end.

Definition keys (doc : JsonDocument) : list string := map fst doc.

Fixpoint get (doc : JsonDocument) (key : string) : option Z :=
  match doc with
  | [] => None
  | (k, v) :: rest => if String.eqb k key then Some v else get rest key
  end.

Definition dquote : string := String "034"%char "".

Definition number (z : Z) : string := NilZero.string_of_int (Z.to_int z).

Definition member (kv : string * Z) : string :=
  dquote ++ fst kv ++ dquote ++ ":" ++ number (snd kv).

Fixpoint members (doc : JsonDocument) : string :=
  match doc with
  | [] => ""
  | [kv] => member kv
  | kv :: rest => member kv ++ "," ++ members rest
  end.

(** [serializeJson(doc, out)]: the compact form. *)
Definition serializeJson (doc : JsonDocument) : string :=
  "{" ++ members doc ++ "}".

End Json.

(** What [server.send] is called with. *)
Record Response := mkResponse {
  code : Z;
  content_type : string;
  content : string
}.

(** The document [handleData] fills in. *)
Definition snapshotDoc (now : Z) (sd : SensorData) : Json.JsonDocument :=
  let doc := Json.empty in
  let doc := Json.set doc "co2" (co2 sd) in
  let doc := Json.set doc "pm25" (pm25 sd) in
  let doc := Json.set doc "o3" (o3 sd) in
  let doc := Json.set doc "temp" (temp sd) in
  let doc := Json.set doc "hum" (hum sd) in
  let doc := Json.set doc "tvoc" (tvoc sd) in
  let doc := Json.set doc "lastUpdate" now in
  doc.

(** Collects the data of the store and sends it as JSON; [now] is the
    reading of [millis()].  The world comes back next to the response. *)
Definition handleData (now : Z) (w : World) : World * Response :=
  let doc := snapshotDoc now (sensorData w) in
  let jsonString := Json.serializeJson doc in
  let httpResponseCode := 200 in
  (w, {| code := httpResponseCode;
         content_type := "application/json";
         content := jsonString |}).

(** ** Wire helpers *)

(** The bytes of a text, as the Arduino side sends them. *)
Definition bytes_of (s : string) : list byte := list_byte_of_string s.

(** The delimiter byte. *)
Definition xFF : byte := Byte.xff.

(** A list of bytes all processed at clock reading [now]. *)
Definition at_time (now : Z) (bs : list byte) : list (Z * byte) :=
  map (fun b => (now, b)) bs.

(** ** The field table of the specification *)

Inductive Field := CO2 | PM25 | O3 | TEMP | HUM | TVOC.

Definition all_fields : list Field := [CO2; PM25; O3; TEMP; HUM; TVOC].

Definition Field_eqb (f g : Field) : bool :=
  match f, g with
  | CO2, CO2 | PM25, PM25 | O3, O3 | TEMP, TEMP | HUM, HUM | TVOC, TVOC =>
      true
  | _, _ => false
  end.

(** Prefix column. *)
Definition prefix_of (f : Field) : string :=
  match f with
  | CO2 => "co2V.val="
  | PM25 => "pm25V.val="
  | O3 => "o3V.val="
  | TEMP => "tempV.val="
  | HUM => "humV.val="
  | TVOC => "tvocV.val="
  end.

(** Valid-range column, both bounds inclusive. *)
Definition range_lo (f : Field) : Z :=
  match f with
  | CO2 => 1
  | TEMP => -50
  | PM25 | O3 | HUM | TVOC => 0
  end.

Definition range_hi (f : Field) : Z :=
  match f with
  | CO2 => 9999
  | TEMP => 99
  | HUM => 100
  | PM25 | O3 | TVOC => 1999
  end.

Definition in_range (f : Field) (v : Z) : bool :=
  (range_lo f <=? v) && (v <=? range_hi f).

(** Reading and accepting a field of the store. *)
Definition field (f : Field) (sd : SensorData) : Z :=
  match f with
  | CO2 => co2 sd
  | PM25 => pm25 sd
  | O3 => o3 sd
  | TEMP => temp sd
  | HUM => hum sd
  | TVOC => tvoc sd
  end.

Definition accept (f : Field) (v now : Z) (sd : SensorData) : SensorData :=
  {| co2 := if Field_eqb f CO2 then v else co2 sd;
     pm25 := if Field_eqb f PM25 then v else pm25 sd;
     o3 := if Field_eqb f O3 then v else o3 sd;
     temp := if Field_eqb f TEMP then v else temp sd;
     hum := if Field_eqb f HUM then v else hum sd;
     tvoc := if Field_eqb f TVOC then v else tvoc sd;
     lastUpdate := now |}.

(** The fields in which two stores differ. *)
Definition changed_fields (sd sd' : SensorData) : list Field :=
  filter (fun f => negb (field f sd =? field f sd')) all_fields.

(** No recognised prefix starts the message. *)
Definition unknown_command (data : string) : bool :=
  forallb (fun f => negb (startsWith data (prefix_of f))) all_fields.

(** ** Integer literals of the wire grammar *)

(** An optionally signed base-10 literal: a sign and a run of digits
    (the empty run is written [0], as the Standard Library prints it). *)
Inductive Sign := NoSign | PlusSign | MinusSign.

Record Literal := mkLiteral {
  lit_sign : Sign;
  lit_digits : Decimal.uint
}.

Definition literal_text (l : Literal) : string :=
  match lit_sign l with
  | NoSign => ""
  | PlusSign => "+"
  | MinusSign => "-"
  end ++ NilZero.string_of_uint (lit_digits l).

Definition literal_value (l : Literal) : Z :=
  match lit_sign l with
  | MinusSign => - Z.of_uint (lit_digits l)
  | NoSign | PlusSign => Z.of_uint (lit_digits l)
  end.

(** The canonical literal of an integer. *)
Definition literal_of_Z (n : Z) : Literal :=
  match Z.to_int n with
  | Decimal.Pos d => {| lit_sign := NoSign; lit_digits := d |}
  | Decimal.Neg d => {| lit_sign := MinusSign; lit_digits := d |}
  end.

(** A payload on which the conversion finds no digit: after the white
    space and one optional sign the text ends or goes on with a character
    that is not a decimal digit. *)
Definition starts_with_digit (s : string) : bool :=
  match s with
  | String c _ =>
      match digit_of c with Some _ => true | None => false end
  | EmptyString => false
  end.

Definition non_numeric (s : string) : bool :=
  negb (starts_with_digit (snd (take_sign (skip_space s)))).

(** A payload that is an integer literal and nothing else: one optional
    sign, then one or more decimal digits up to the end of the text. *)
Fixpoint all_digits (s : string) : bool :=
  match s with
  | String c t =>
      match digit_of c with Some _ => all_digits t | None => false end
  | EmptyString => true
  end.

Definition integer_text (s : string) : bool :=
  let t := snd (take_sign s) in
  starts_with_digit t && all_digits t.

(** ** Runs of the parser and of the reader *)

(** The parser applied to a sequence of complete messages, each with the
    clock reading at its arrival. *)
Definition process (msgs : list (Z * string)) (sd : SensorData)
  : SensorData :=
  fold_left (fun acc m => parseArduinoData (fst m) (snd m) acc) msgs sd.

(** [v] was accepted for [f] from one of the messages [msgs]. *)
Definition accepted_from (msgs : list (Z * string)) (f : Field) (v : Z)
  : Prop :=
  exists now rest,
    In (now, prefix_of f ++ rest) msgs /\ toInt rest = v /\
    in_range f v = true.

(** The store invariant after the messages [msgs]: every field holds its
    initial 0 or a value accepted from one of them. *)
Definition store_ok (msgs : list (Z * string)) (sd : SensorData) : Prop :=
  forall f, field f sd = 0 \/ accepted_from msgs f (field f sd).

Definition printable (b : byte) : bool :=
  (32 <=? Byte.to_N b)%N && (Byte.to_N b <=? 126)%N.

(** The text a run of bytes adds to the buffer when all are printable. *)
Definition text_of (bs : list byte) : string := string_of_list_byte bs.

(** [needle] occurs in [hay]. *)
Definition Contains (hay needle : string) : Prop :=
  exists before after, hay = before ++ needle ++ after.

(** ** loop *)

(** [unsigned long] arithmetic: [millis()], [lastSerialCheck] and
    [lastUpdate] are 32-bit unsigned, and their differences wrap. *)
Definition ulong (z : Z) : Z := z mod 2 ^ 32.

(** The sketch's globals: the world of the reader and the parser, and the
    time of the last debug line. *)
Record Sketch := mkSketch {
  world : World;
  lastSerialCheck : Z
}.

Definition sketch0 : Sketch := {| world := world0; lastSerialCheck := 0 |}.

(** The two numbers of a debug line. *)
Record DebugLine := mkDebugLine {
  serial_available : Z;
  seconds_ago : Z
}.

(** The debug block that closes [loop].  [t1], [t2] and [t3] are the three
    readings of [millis()] in the order the block takes them, [pending] is
    what [ArduinoSerial.available()] answers. *)
Definition debugBlock (t1 t2 t3 pending : Z) (s : Sketch)
  : Sketch * option DebugLine :=
  if ulong (t1 - lastSerialCheck s) >? 5000 then
    ({| world := world s; lastSerialCheck := t2 |},
     Some {| serial_available := pending;
             seconds_ago :=
               ulong (t3 - lastUpdate (sensorData (world s))) / 1000 |})
  else (s, None).

(** What one iteration of [loop] meets: whether [server.handleClient()]
    dispatches a request for [/data] to [handleData] (with the clock
    reading [handleData] takes; the other routes read files only and do
    not touch the globals), the bytes waiting on the UART, and the inputs
    of the debug block. *)
Record Poll := mkPoll {
  data_request : option Z;
  incoming : list (Z * byte);
  debug_clock : Z * Z * Z;
  pending_after : Z
}.

(** What one iteration sends out. *)
Record Output := mkOutput {
  response : option Response;
  messages : list string;
  debug_line : option DebugLine
}.

Definition loop (p : Poll) (s : Sketch) : Sketch * Output :=
  let '(w1, resp) :=
    match data_request p with
    | Some now =>
        let '(w, r) := handleData now (world s) in (w, Some r)
    | None => (world s, None)
    end in
  let '(w2, msgs) := readArduinoData (incoming p) w1 in
  let '(t1, t2, t3) := debug_clock p in
  let '(s3, line) :=
    debugBlock t1 t2 t3 (pending_after p)
      {| world := w2; lastSerialCheck := lastSerialCheck s |} in
  (s3, {| response := resp; messages := msgs; debug_line := line |}).

(** [loop] called again and again. *)
Fixpoint run (polls : list Poll) (s : Sketch) : Sketch * list Output :=
  match polls with
  | [] => (s, [])
  | p :: rest =>
      let '(s1, o) := loop p s in
      let '(s2, os) := run rest s1 in
      (s2, o :: os)
  end.

(** ** Messages on the wire *)

(** A text made of printable characters only. *)
Fixpoint all_printable (s : string) : bool :=
  match s with
  | String c t => printable (byte_of_ascii c) && all_printable t
  | EmptyString => true
  end.

(** What the reader can hand over whole: a non-empty printable text of
    at most 100 characters. *)
Definition sendable (m : string) : bool :=
  negb (String.eqb m "") && (strlen m <=? 100) && all_printable m.

(** A message as the Arduino sends it, all of it read at clock [now]. *)
Definition frame (now : Z) (m : string) : list (Z * byte) :=
  at_time now (bytes_of m ++ [xFF; xFF; xFF]).

Definition is_xFF (b : byte) : bool := (Byte.to_N b =? 255)%N.

(** The parser accepts [data]: a prefix matches and the value passes that
    field's range check. *)
Definition accepts (data : string) : bool :=
  existsb
    (fun f =>
       startsWith data (prefix_of f) &&
       in_range f (toInt (substring data (String.length (prefix_of f)))))
    all_fields.

(** The clock reading of the last accepted message of a sequence, from
    [t0] when there is none. *)
Definition last_accept_time (t0 : Z) (msgs : list (Z * string)) : Z :=
  fold_left (fun t m => if accepts (snd m) then fst m else t) msgs t0.

(** White space only. *)
Fixpoint all_space (s : string) : bool :=
  match s with
  | String c t => isspace c && all_space t
  | EmptyString => true
  end.

(** The key under which [handleData] exports a field. *)
Definition json_key (f : Field) : string :=
  match f with
  | CO2 => "co2"
  | PM25 => "pm25"
  | O3 => "o3"
  | TEMP => "temp"
  | HUM => "hum"
  | TVOC => "tvoc"
  end.

(** Three delimiter bytes in a row somewhere in a stream. *)
Definition has_terminator (avail : list (Z * byte)) : Prop :=
  exists pre t1 t2 t3 post,
    avail = (pre ++ (t1, xFF) :: (t2, xFF) :: (t3, xFF) :: post)%list.

(** The number of delimiter bytes at the head of a list of bytes. *)
Fixpoint leading_ff (l : list (Z * byte)) : Z :=
  match l with
  | (_, b) :: rest => if is_xFF b then 1 + leading_ff rest else 0
  | [] => 0
  end.

(** * Properties *)

(** ** Strings *)

Lemma strlen_nonneg (s : string) : 0 <= strlen s.
Proof. unfold strlen. lia. Qed.

Lemma strlen_app (s t : string) : strlen (s ++ t) = strlen s + strlen t.
Proof.
  unfold strlen. induction s as [|c s IH]; cbn [append String.length].
  - lia.
  - lia.
Qed.

Lemma strlen_empty_iff (s : string) : (strlen s >? 0) = false <-> s = "".
Proof.
  unfold strlen. destruct s; cbn [String.length]; split; intro H;
    try reflexivity; try discriminate; lia.
Qed.

Lemma append_empty_r (s : string) : s ++ "" = s.
Proof. induction s as [|c s IH]; cbn; [reflexivity | now rewrite IH]. Qed.

Lemma append_assoc (s t u : string) : (s ++ t) ++ u = s ++ t ++ u.
Proof. induction s as [|c s IH]; cbn; [reflexivity | now rewrite IH]. Qed.

Lemma startsWith_split (p s : string) :
  startsWith s p = true -> s = p ++ substring s (String.length p).
Proof.
  unfold startsWith. revert s.
  induction p as [|a p IH]; intros s H.
  - reflexivity.
  - destruct s as [|b s]; cbn in H; [discriminate|].
    destruct (ascii_dec a b) as [->|]; [|discriminate].
    cbn. f_equal. now apply IH.
Qed.

Lemma startsWith_app (p r : string) : startsWith (p ++ r) p = true.
Proof.
  unfold startsWith. induction p as [|a p IH]; cbn.
  - now destruct r.
  - destruct (ascii_dec a a); [exact IH | congruence].
Qed.

Lemma substring_app (p r : string) : substring (p ++ r) (String.length p) = r.
Proof. induction p as [|a p IH]; cbn; [now destruct r | exact IH]. Qed.

(** ** The parser, message by message *)

Ltac eval_startsWith :=
  repeat match goal with
  | |- context [startsWith (?p ++ ?r) ?p] => rewrite (startsWith_app p r)
  | |- context [startsWith ?a ?b] =>
      let v := eval vm_compute in (startsWith a b) in
      match v with
      | false => change (startsWith a b) with false
      end
  end;
  cbv iota.

(** The code's sanity checks are the ranges of the field table. *)
Lemma sanity_checks (v : Z) :
  ((v >? 0) && (v <? 10000) = in_range CO2 v) /\
  ((v >=? 0) && (v <? 2000) = in_range PM25 v) /\
  ((v >=? 0) && (v <? 2000) = in_range O3 v) /\
  ((v >=? -50) && (v <? 100) = in_range TEMP v) /\
  ((v >=? 0) && (v <=? 100) = in_range HUM v) /\
  ((v >=? 0) && (v <? 2000) = in_range TVOC v).
Proof.
  unfold in_range, range_lo, range_hi.
  repeat split;
    repeat match goal with
    | |- context [?a >? ?b] => destruct (Z.gtb_spec a b)
    | |- context [?a >=? ?b] => destruct (Z.geb_spec a b)
    | |- context [?a <? ?b] => destruct (Z.ltb_spec a b)
    | |- context [?a <=? ?b] => destruct (Z.leb_spec a b)
    end; cbn; try reflexivity; lia.
Qed.

Lemma parse_prefixed (f : Field) (rest : string) (now : Z) (sd : SensorData) :
  parseArduinoData now (prefix_of f ++ rest) sd =
  if in_range f (toInt rest) then accept f (toInt rest) now sd else sd.
Proof.
  destruct (sanity_checks (toInt rest)) as (H1 & H2 & H3 & H4 & H5 & H6).
  destruct f; unfold parseArduinoData, prefix_of; eval_startsWith;
    match goal with
    | |- context [substring (?p ++ rest) ?n] =>
        change (substring (p ++ rest) n) with rest
    end; cbv zeta;
    first [rewrite H1 | rewrite H2 | rewrite H3 | rewrite H4 | rewrite H5
          | rewrite H6];
    reflexivity.
Qed.

Lemma parse_unknown (data : string) (now : Z) (sd : SensorData) :
  unknown_command data = true -> parseArduinoData now data sd = sd.
Proof.
  unfold unknown_command, all_fields. cbn [forallb prefix_of].
  rewrite !andb_true_iff, !negb_true_iff.
  intros (H1 & H2 & H3 & H4 & H5 & H6 & _).
  unfold parseArduinoData. now rewrite H1, H2, H3, H4, H5, H6.
Qed.

Lemma known_command (data : string) :
  unknown_command data = false ->
  exists f rest, data = prefix_of f ++ rest.
Proof.
  unfold unknown_command, all_fields. cbn [forallb].
  intros H.
  repeat match type of H with
  | (negb (startsWith data (prefix_of ?f)) && _) = false =>
      destruct (startsWith data (prefix_of f)) eqn:E;
        [ exists f, (substring data (String.length (prefix_of f)));
          now apply startsWith_split
        | clear E; cbn [negb andb] in H ]
  end.
  discriminate.
Qed.

(** Every message is either dropped or accepted for exactly one field
    with an in-range value. *)
Lemma parse_cases (now : Z) (data : string) (sd : SensorData) :
  parseArduinoData now data sd = sd \/
  exists f rest,
    data = prefix_of f ++ rest /\ in_range f (toInt rest) = true /\
    parseArduinoData now data sd = accept f (toInt rest) now sd.
Proof.
  destruct (unknown_command data) eqn:U.
  - left. now apply parse_unknown.
  - destruct (known_command data U) as (f & rest & ->).
    rewrite parse_prefixed.
    destruct (in_range f (toInt rest)) eqn:R.
    + right. exists f, rest. auto.
    + now left.
Qed.

Lemma field_accept_same (f : Field) (v now : Z) (sd : SensorData) :
  field f (accept f v now sd) = v.
Proof. now destruct f. Qed.

Lemma field_accept_other (f g : Field) (v now : Z) (sd : SensorData) :
  g <> f -> field g (accept f v now sd) = field g sd.
Proof. destruct f, g; intros H; try reflexivity; congruence. Qed.

Lemma lastUpdate_accept (f : Field) (v now : Z) (sd : SensorData) :
  lastUpdate (accept f v now sd) = now.
Proof. reflexivity. Qed.

(** ** toInt on literals and on malformed payloads *)

Ltac eval_digit :=
  repeat match goal with
  | |- context [digit_of ?c] =>
      let v := eval vm_compute in (digit_of c) in
      change (digit_of c) with v
  end;
  cbv iota.

Lemma digits_of_uint_acc (d : Decimal.uint) (p : positive) :
  digits (Z.pos p) (NilEmpty.string_of_uint d) = Z.pos (Pos.of_uint_acc d p).
Proof.
  revert p.
  induction d; intros p;
    cbn [NilEmpty.string_of_uint digits Pos.of_uint_acc];
    try reflexivity; eval_digit; rewrite <- IHd; f_equal; lia.
Qed.

Lemma digits_of_uint (d : Decimal.uint) :
  digits 0 (NilEmpty.string_of_uint d) = Z.of_uint d.
Proof.
  unfold Z.of_uint.
  induction d; cbn [NilEmpty.string_of_uint digits Pos.of_uint];
    try reflexivity; eval_digit; try exact IHd;
    cbn [Z.mul Z.add Z.of_N]; apply digits_of_uint_acc.
Qed.

Lemma digits_of_literal_digits (d : Decimal.uint) :
  digits 0 (NilZero.string_of_uint d) = Z.of_uint d.
Proof.
  destruct d; try apply digits_of_uint. reflexivity.
Qed.

Lemma toInt_unsigned (d : Decimal.uint) :
  toInt (NilZero.string_of_uint d) = saturate (Z.of_uint d).
Proof.
  rewrite <- digits_of_literal_digits.
  destruct d; reflexivity.
Qed.

Lemma toInt_literal (l : Literal) :
  toInt (literal_text l) = saturate (literal_value l).
Proof.
  destruct l as [[| |] d]; unfold literal_text, literal_value;
    cbn [lit_sign lit_digits].
  - apply toInt_unsigned.
  - rewrite <- digits_of_literal_digits. reflexivity.
  - rewrite <- digits_of_literal_digits. reflexivity.
Qed.

Lemma literal_of_Z_value (n : Z) : literal_value (literal_of_Z n) = n.
Proof.
  unfold literal_of_Z.
  rewrite <- (DecimalZ.of_to n) at 2.
  destruct (Z.to_int n); reflexivity.
Qed.

Lemma literal_of_Z_text (n : Z) :
  literal_text (literal_of_Z n) = Json.number n.
Proof.
  unfold literal_of_Z, Json.number.
  destruct (Z.to_int n); reflexivity.
Qed.

Lemma in_range_saturate (f : Field) (v : Z) :
  in_range f (saturate v) = in_range f v.
Proof.
  unfold in_range, saturate, LONG_MIN, LONG_MAX.
  destruct (Z.ltb_spec v (-2147483648));
    [| destruct (Z.ltb_spec 2147483647 v)]; try reflexivity;
    destruct f; cbn [range_lo range_hi];
    repeat match goal with
    | |- context [?a <=? ?b] => destruct (Z.leb_spec a b)
    end; cbn; try reflexivity; lia.
Qed.

Lemma saturate_in_range (f : Field) (v : Z) :
  in_range f v = true -> saturate v = v.
Proof.
  unfold in_range, saturate, LONG_MIN, LONG_MAX.
  rewrite andb_true_iff, !Z.leb_le. intros [Hlo Hhi].
  assert (-50 <= range_lo f) by (destruct f; cbn; lia).
  assert (range_hi f <= 9999) by (destruct f; cbn; lia).
  destruct (Z.ltb_spec v (-2147483648)); [lia|].
  destruct (Z.ltb_spec 2147483647 v); [lia|]. reflexivity.
Qed.

Lemma digits_no_digit (t : string) :
  starts_with_digit t = false -> digits 0 t = 0.
Proof.
  destruct t as [|c t]; cbn [starts_with_digit digits]; [reflexivity|].
  destruct (digit_of c); [discriminate | reflexivity].
Qed.

Lemma toInt_non_numeric (s : string) : non_numeric s = true -> toInt s = 0.
Proof.
  unfold non_numeric, toInt. rewrite negb_true_iff.
  destruct (take_sign (skip_space s)) as [neg t]. cbn [snd].
  intros H. rewrite (digits_no_digit t H). now destruct neg.
Qed.

(** ** The store under sequences of messages *)

Lemma Field_eq_dec (f g : Field) : {f = g} + {f <> g}.
Proof. decide equality. Defined.

Lemma process_snoc (msgs : list (Z * string)) (now : Z) (data : string)
    (sd : SensorData) :
  process (msgs ++ [(now, data)]) sd =
  parseArduinoData now data (process msgs sd).
Proof. unfold process. now rewrite fold_left_app. Qed.

Lemma accepted_from_snoc (msgs : list (Z * string)) (m : Z * string)
    (f : Field) (v : Z) :
  accepted_from msgs f v -> accepted_from (msgs ++ [m]) f v.
Proof.
  intros (now & rest & Hin & Hv & Hr). exists now, rest.
  repeat split; trivial. apply in_or_app. now left.
Qed.

Lemma store_ok_step (msgs : list (Z * string)) (now : Z) (data : string)
    (sd : SensorData) :
  store_ok msgs sd ->
  store_ok (msgs ++ [(now, data)]) (parseArduinoData now data sd).
Proof.
  intros Hok g.
  destruct (parse_cases now data sd) as [-> | (f & rest & -> & Hr & ->)].
  - destruct (Hok g) as [H0 | Hacc]; [now left | right].
    now apply accepted_from_snoc.
  - destruct (Field_eq_dec g f) as [-> | Hne].
    + right. rewrite field_accept_same. exists now, rest.
      repeat split; trivial. apply in_or_app. right. now left.
    + rewrite field_accept_other by assumption.
      destruct (Hok g) as [H0 | Hacc]; [now left | right].
      now apply accepted_from_snoc.
Qed.

Lemma store_ok_process (msgs : list (Z * string)) :
  store_ok msgs (process msgs sensorData0).
Proof.
  induction msgs as [| [now data] msgs IH] using rev_ind.
  - intros f. left. now destruct f.
  - rewrite process_snoc. now apply store_ok_step.
Qed.

Lemma accepted_stays_in_range (msgs : list (Z * string)) (f : Field) :
  (exists v, accepted_from msgs f v) ->
  in_range f (field f (process msgs sensorData0)) = true.
Proof.
  induction msgs as [| [t data] msgs IH] using rev_ind;
    intros (v & now & rest & Hin & Hv & Hr).
  - destruct Hin.
  - rewrite process_snoc. apply in_app_or in Hin as [Hin | [E | []]].
    + assert (IH' : in_range f (field f (process msgs sensorData0)) = true)
        by (apply IH; exists v, now, rest; auto).
      destruct (parse_cases t data (process msgs sensorData0))
        as [-> | (g & r' & -> & Hr' & ->)]; [exact IH'|].
      destruct (Field_eq_dec f g) as [-> | Hne].
      * now rewrite field_accept_same.
      * now rewrite field_accept_other.
    + injection E as -> ->. subst v.
      now rewrite parse_prefixed, Hr, field_accept_same.
Qed.

(** C1. Whatever messages the parser has processed, and at every point of
    the sequence (after any number [k] of them), each of the six fields of
    the store holds either its initial 0 or a value that one of the
    messages processed so far carried for that field and that lies within
    the field's declared range; a field for which a value has been
    accepted holds an in-range value ever after.  No message writes a
    value outside the range: the message processed next, whatever it is,
    either leaves the store as it is or puts an in-range value into one
    field and touches no other. *)
Theorem store_range_invariant (msgs : list (Z * string)) (k : nat)
    (f : Field) (now : Z) (data : string) :
  let sd := process (firstn k msgs) sensorData0 in
  let sd' := parseArduinoData now data sd in
  (field f sd = 0 \/
   (in_range f (field f sd) = true /\
    accepted_from (firstn k msgs) f (field f sd))) /\
  ((exists v, accepted_from (firstn k msgs) f v) ->
   in_range f (field f sd) = true) /\
  process (firstn k msgs ++ [(now, data)]) sensorData0 = sd' /\
  (sd' = sd \/
   exists g v,
     in_range g v = true /\ sd' = accept g v now sd /\ field g sd' = v /\
     (forall h, h <> g -> field h sd' = field h sd)).
Proof.
  intros sd sd'. repeat apply conj.
  - destruct (store_ok_process (firstn k msgs) f) as [H0 | Hacc].
    + now left.
    + right. split; [|exact Hacc].
      destruct Hacc as (t & rest & _ & _ & Hr). exact Hr.
  - apply accepted_stays_in_range.
  - apply process_snoc.
  - subst sd'.
    destruct (parse_cases now data sd) as [E | (g & rest & _ & Hr & E)].
    + now left.
    + right. exists g, (toInt rest). rewrite E. repeat split; trivial.
      * apply field_accept_same.
      * intros h Hne. now apply field_accept_other.
Qed.

(** C2. A message made of a recognised prefix and an integer literal of
    value [n] writes [n] into that prefix's field and sets [lastUpdate] to
    the clock reading exactly when [n] is within the declared range of the
    field (CO2 1..9999, PM2.5 0..1999, O3 0..1999, temperature -50..99,
    humidity 0..100, TVOC 0..1999, bounds included); otherwise the store,
    and with it the field, stays as it was. *)
Theorem per_field_acceptance (f : Field) (l : Literal) (now : Z)
    (sd : SensorData) :
  let n := literal_value l in
  let sd' := parseArduinoData now (prefix_of f ++ literal_text l) sd in
  sd' = (if in_range f n then accept f n now sd else sd) /\
  field f (accept f n now sd) = n /\
  lastUpdate (accept f n now sd) = now /\
  (in_range f n = true <->
   match f with
   | CO2 => 1 <= n <= 9999
   | PM25 => 0 <= n <= 1999
   | O3 => 0 <= n <= 1999
   | TEMP => -50 <= n <= 99
   | HUM => 0 <= n <= 100
   | TVOC => 0 <= n <= 1999
   end).
Proof.
  intros n sd'. subst sd'. repeat split.
  - rewrite parse_prefixed, toInt_literal, in_range_saturate. fold n.
    destruct (in_range f n) eqn:R; [|reflexivity].
    now rewrite (saturate_in_range f n R).
  - apply field_accept_same.
  - unfold in_range. rewrite andb_true_iff, !Z.leb_le.
    destruct f; cbn [range_lo range_hi]; lia.
  - unfold in_range. rewrite andb_true_iff, !Z.leb_le.
    destruct f; cbn [range_lo range_hi]; lia.
Qed.

(** C6. A message that starts with none of the recognised prefixes, and a
    message whose value is outside its field's range, leave every field of
    the store and [lastUpdate] as they were; the parser has no other
    result than the store.  So do "foo.val=1" and "humV.val=150", handed
    to the parser or sent over the wire with their terminator. *)
Theorem silent_rejection (now : Z) (sd : SensorData) (data : string)
    (f : Field) (rest : string) :
  (unknown_command data = true -> parseArduinoData now data sd = sd) /\
  (in_range f (toInt rest) = false ->
   parseArduinoData now (prefix_of f ++ rest) sd = sd) /\
  parseArduinoData now "foo.val=1" sd = sd /\
  parseArduinoData now "humV.val=150" sd = sd /\
  (forall n : Z,
     readArduinoData
       (at_time now (bytes_of "foo.val=1" ++ [xFF; xFF; xFF]))
       {| sensorData := sd; serialBuffer := ""; ffCount := n |} =
     ({| sensorData := sd; serialBuffer := ""; ffCount := 0 |},
      ["foo.val=1"])) /\
  (forall n : Z,
     readArduinoData
       (at_time now (bytes_of "humV.val=150" ++ [xFF; xFF; xFF]))
       {| sensorData := sd; serialBuffer := ""; ffCount := n |} =
     ({| sensorData := sd; serialBuffer := ""; ffCount := 0 |},
      ["humV.val=150"])).
Proof.
  repeat split.
  - apply parse_unknown.
  - intros R. now rewrite parse_prefixed, R.
Qed.

(** C7, as amended. When the text after a recognised prefix does not
    begin, after optional white space and one optional sign, with a
    decimal digit, the conversion finds no number and the parsed value is
    0: the message sets the field to 0 and refreshes [lastUpdate] for
    every field whose range contains 0 (PM2.5, O3, temperature, humidity,
    TVOC), and for CO2, whose range starts at 1, it is rejected and the
    store is unchanged.  (A payload that begins with digits and goes on
    with other text is read as those digits.) *)
Theorem malformed_payload_is_zero (f : Field) (rest : string) (now : Z)
    (sd : SensorData) :
  non_numeric rest = true ->
  toInt rest = 0 /\
  parseArduinoData now (prefix_of f ++ rest) sd =
  match f with
  | CO2 => sd
  | _ => accept f 0 now sd
  end.
Proof.
  intros H. apply toInt_non_numeric in H. split; [exact H|].
  rewrite parse_prefixed, H. now destruct f.
Qed.

(** C9, as amended. Processing the same valid message twice in a row
    leaves every field, the targeted one included, at the value it had
    after the first time; each of the two acceptances sets [lastUpdate]
    to the clock reading at that acceptance, so [lastUpdate] moves
    forward at an acceptance exactly when that reading is later than the
    value it held, and stays where it is when the clock has not moved. *)
Theorem acceptance_idempotent (f : Field) (rest : string) (t1 t2 : Z)
    (sd : SensorData) :
  in_range f (toInt rest) = true ->
  let msg := prefix_of f ++ rest in
  let sd1 := parseArduinoData t1 msg sd in
  let sd2 := parseArduinoData t2 msg sd1 in
  field f sd1 = toInt rest /\
  field f sd2 = field f sd1 /\
  (forall g, field g sd2 = field g sd1) /\
  lastUpdate sd1 = t1 /\
  lastUpdate sd2 = t2 /\
  (lastUpdate sd < lastUpdate sd1 <-> lastUpdate sd < t1) /\
  (lastUpdate sd1 < lastUpdate sd2 <-> t1 < t2) /\
  (t2 = t1 -> sd2 = sd1).
Proof.
  intros R msg sd1 sd2. subst sd2 sd1 msg.
  rewrite !parse_prefixed, R.
  repeat apply conj; try reflexivity; try (intros H; exact H).
  - apply field_accept_same.
  - now rewrite !field_accept_same.
  - intros g. destruct (Field_eq_dec g f) as [-> | Hne].
    + now rewrite !field_accept_same.
    + now rewrite !field_accept_other.
  - intros ->. now destruct f.
Qed.

(** C10. One message changes at most one of the six measurement fields:
    either the store is left as it was, or the message is accepted for one
    field [f] with an in-range value, the other five fields keep their
    values, and besides [f] only [lastUpdate] is written. *)
Theorem at_most_one_field (now : Z) (data : string) (sd : SensorData) :
  let sd' := parseArduinoData now data sd in
  (List.length (changed_fields sd sd') <= 1)%nat /\
  (sd' = sd \/
   exists f v,
     in_range f v = true /\
     sd' = accept f v now sd /\
     field f sd' = v /\
     lastUpdate sd' = now /\
     (forall g, g <> f -> field g sd' = field g sd) /\
     (forall g, In g (changed_fields sd sd') -> g = f)).
Proof.
  intros sd'. subst sd'.
  destruct (parse_cases now data sd) as [-> | (f & rest & -> & Hr & ->)].
  - split; [|now left].
    unfold changed_fields, all_fields. cbn [filter].
    rewrite !Z.eqb_refl. cbn. lia.
  - assert (Hin : forall g,
               In g (changed_fields sd (accept f (toInt rest) now sd)) ->
               g = f).
    { intros g. unfold changed_fields. rewrite filter_In.
      intros [_ Hg]. destruct (Field_eq_dec g f) as [|Hne]; [assumption|].
      rewrite field_accept_other, Z.eqb_refl in Hg by assumption.
      discriminate. }
    split.
    + clear Hin. unfold changed_fields, all_fields.
      destruct f; cbn [filter field accept Field_eqb co2 pm25 o3 temp hum tvoc];
        rewrite ?Z.eqb_refl; cbn [negb];
        match goal with
        | |- context [?a =? ?b] => destruct (a =? b)
        end; cbn; lia.
    + right. exists f, (toInt rest). repeat split; trivial.
      * apply field_accept_same.
      * intros g Hne. now apply field_accept_other.
Qed.

(** ** The frame reader, byte by byte *)

Lemma xFF_iff (b : byte) : (Byte.to_N b =? 255)%N = true <-> b = xFF.
Proof.
  split.
  - destruct b; vm_compute; intros H; first [reflexivity | discriminate H].
  - now intros ->.
Qed.

Lemma printable_not_xFF (b : byte) :
  printable b = true -> (Byte.to_N b =? 255)%N = false.
Proof.
  unfold printable. rewrite andb_true_iff, !N.leb_le. intros [_ H].
  apply N.eqb_neq. lia.
Qed.

Lemma overflowCheck_id (w : World) :
  strlen (serialBuffer w) <= 100 -> overflowCheck w = w.
Proof.
  intros H. unfold overflowCheck.
  destruct (Z.gtb_spec (strlen (serialBuffer w)) 100); [lia | reflexivity].
Qed.

Lemma overflowCheck_clear (w : World) :
  100 < strlen (serialBuffer w) ->
  overflowCheck w =
  {| sensorData := sensorData w; serialBuffer := ""; ffCount := 0 |}.
Proof.
  intros H. unfold overflowCheck.
  destruct (Z.gtb_spec (strlen (serialBuffer w)) 100); [reflexivity | lia].
Qed.

Lemma overflowCheck_bound (w : World) :
  strlen (serialBuffer (overflowCheck w)) <= 100.
Proof.
  unfold overflowCheck.
  destruct (Z.gtb_spec (strlen (serialBuffer w)) 100); cbn; [|assumption].
  unfold strlen. cbn. lia.
Qed.

Lemma overflowCheck_sensorData (w : World) :
  sensorData (overflowCheck w) = sensorData w.
Proof. unfold overflowCheck. now destruct (_ >? _). Qed.

Lemma readByte_delim_count (now : Z) (w : World) :
  ffCount w + 1 < 3 ->
  readByte now xFF w =
  (overflowCheck
     {| sensorData := sensorData w; serialBuffer := serialBuffer w;
        ffCount := ffCount w + 1 |}, None).
Proof.
  intros H. unfold readByte.
  change (Byte.to_N xFF =? 255)%N with true. cbv iota zeta.
  destruct (Z.geb_spec (ffCount w + 1) 3); [lia | reflexivity].
Qed.

Lemma readByte_delim_emit (now : Z) (w : World) :
  3 <= ffCount w + 1 -> serialBuffer w <> "" ->
  readByte now xFF w =
  ({| sensorData := parseArduinoData now (serialBuffer w) (sensorData w);
      serialBuffer := ""; ffCount := 0 |}, Some (serialBuffer w)).
Proof.
  intros H Hne. unfold readByte.
  change (Byte.to_N xFF =? 255)%N with true. cbv iota zeta.
  destruct (Z.geb_spec (ffCount w + 1) 3); [|lia].
  destruct (strlen (serialBuffer w) >? 0) eqn:E.
  - reflexivity.
  - apply strlen_empty_iff in E. contradiction.
Qed.

Lemma readByte_delim_idle (now : Z) (w : World) :
  3 <= ffCount w + 1 -> serialBuffer w = "" ->
  readByte now xFF w =
  ({| sensorData := sensorData w; serialBuffer := ""; ffCount := 0 |}, None).
Proof.
  intros H He. unfold readByte.
  change (Byte.to_N xFF =? 255)%N with true. cbv iota zeta.
  destruct (Z.geb_spec (ffCount w + 1) 3); [|lia].
  rewrite He. reflexivity.
Qed.

Lemma readByte_printable (now : Z) (b : byte) (w : World) :
  printable b = true ->
  readByte now b w =
  (overflowCheck
     {| sensorData := sensorData w;
        serialBuffer := serialBuffer w ++ String (ascii_of_byte b) "";
        ffCount := 0 |}, None).
Proof.
  intros H. unfold readByte.
  rewrite (printable_not_xFF b H). unfold printable in H. now rewrite H.
Qed.

Lemma readByte_noise (now : Z) (b : byte) (w : World) :
  b <> xFF -> printable b = false ->
  readByte now b w =
  (overflowCheck
     {| sensorData := sensorData w; serialBuffer := serialBuffer w;
        ffCount := 0 |}, None).
Proof.
  intros Hb H. unfold readByte.
  destruct (Byte.to_N b =? 255)%N eqn:E.
  - apply xFF_iff in E. contradiction.
  - unfold printable in H. now rewrite H.
Qed.

(** Every iteration ends in the overflow check. *)
Lemma readByte_checked (now : Z) (b : byte) (w : World) :
  exists w1, fst (readByte now b w) = overflowCheck w1.
Proof.
  unfold readByte.
  match goal with
  | |- context [let '(_, _) := ?X in _] => destruct X as [w1 m]
  end.
  now exists w1.
Qed.

Lemma readByte_bound (now : Z) (b : byte) (w : World) :
  strlen (serialBuffer (fst (readByte now b w))) <= 100.
Proof.
  destruct (readByte_checked now b w) as [w1 ->]. apply overflowCheck_bound.
Qed.

Lemma readByte_count (now : Z) (b : byte) (w : World) :
  0 <= ffCount w <= 2 -> 0 <= ffCount (fst (readByte now b w)) <= 2.
Proof.
  intros H. unfold readByte, overflowCheck.
  repeat match goal with
  | |- context [if ?c then _ else _] => destruct c eqn:?
  end; cbn [fst ffCount]; try lia.
  all: match goal with
       | E : (_ >=? 3) = false |- _ => apply Z.geb_leb, Z.leb_gt in E; lia
       end.
Qed.

(** ** The frame reader on runs of bytes *)

Lemma readArduinoData_app (a b : list (Z * byte)) (w : World) :
  readArduinoData (a ++ b) w =
  (fst (readArduinoData b (fst (readArduinoData a w))),
   (snd (readArduinoData a w) ++
    snd (readArduinoData b (fst (readArduinoData a w))))%list).
Proof.
  revert w. induction a as [| [now x] a IH]; intros w.
  - cbn. now destruct (readArduinoData b w).
  - cbn [app readArduinoData].
    destruct (readByte now x w) as [w1 m]. rewrite IH.
    destruct (readArduinoData a w1) as [w2 ms]. cbn [fst snd].
    destruct (readArduinoData b w2) as [w3 ms']. cbn [fst snd].
    now destruct m.
Qed.

Lemma readArduinoData_bound (avail : list (Z * byte)) (w : World) :
  strlen (serialBuffer w) <= 100 ->
  strlen (serialBuffer (fst (readArduinoData avail w))) <= 100.
Proof.
  revert w. induction avail as [| [now x] avail IH]; intros w H.
  - exact H.
  - cbn [readArduinoData].
    pose proof (readByte_bound now x w) as Hb.
    destruct (readByte now x w) as [w1 m]. cbn [fst] in Hb.
    specialize (IH w1 Hb).
    destruct (readArduinoData avail w1) as [w2 ms]. exact IH.
Qed.

Lemma strlen_text_of (bs : list byte) :
  strlen (text_of bs) = Z.of_nat (List.length bs).
Proof.
  unfold strlen, text_of, string_of_list_byte.
  induction bs as [|b bs IH]; cbn; [reflexivity | lia].
Qed.

Lemma text_of_cons (b : byte) (bs : list byte) :
  text_of (b :: bs) = String (ascii_of_byte b) (text_of bs).
Proof. reflexivity. Qed.

(** A run of printable bytes that fits is appended to the buffer. *)
Lemma read_printable_run (avail : list (Z * byte)) (w : World) :
  forallb printable (map snd avail) = true ->
  strlen (serialBuffer w) + Z.of_nat (List.length avail) <= 100 ->
  readArduinoData avail w =
  ({| sensorData := sensorData w;
      serialBuffer := serialBuffer w ++ text_of (map snd avail);
      ffCount := match avail with [] => ffCount w | _ => 0 end |}, []).
Proof.
  revert w. induction avail as [| [now x] avail IH]; intros w Hp Hl.
  - cbn. rewrite append_empty_r. now destruct w.
  - cbn [map snd forallb] in Hp. apply andb_true_iff in Hp as [Hx Hp].
    cbn [List.length] in Hl.
    cbn [readArduinoData]. rewrite (readByte_printable now x w Hx).
    rewrite overflowCheck_id
      by (cbn [serialBuffer]; rewrite strlen_app; unfold strlen at 2;
          cbn [String.length]; lia).
    rewrite IH; cbn [serialBuffer sensorData ffCount]; trivial.
    + cbn [map snd]. rewrite text_of_cons, append_assoc. cbn [append].
      now destruct avail.
    + rewrite strlen_app. unfold strlen at 2. cbn [String.length]. lia.
Qed.

(** A run of 101 or more printable bytes into an empty buffer: the first
    100 fill it, the next one clears it, the rest start afresh. *)
Lemma read_overflow_run (A R : list (Z * byte)) (t : Z) (x : byte)
    (w : World) :
  List.length A = 100%nat -> (List.length R <= 100)%nat ->
  forallb printable (map snd A) = true -> printable x = true ->
  forallb printable (map snd R) = true ->
  serialBuffer w = "" ->
  readArduinoData A w =
    ({| sensorData := sensorData w; serialBuffer := text_of (map snd A);
        ffCount := 0 |}, []) /\
  readArduinoData (A ++ [(t, x)]) w =
    ({| sensorData := sensorData w; serialBuffer := ""; ffCount := 0 |},
     []) /\
  readArduinoData (A ++ (t, x) :: R) w =
    ({| sensorData := sensorData w; serialBuffer := text_of (map snd R);
        ffCount := 0 |}, []).
Proof.
  intros HA HR PA Px PR Hw.
  assert (EA : readArduinoData A w =
               ({| sensorData := sensorData w;
                   serialBuffer := text_of (map snd A);
                   ffCount := 0 |}, [])).
  { rewrite read_printable_run by (trivial; rewrite Hw, HA; cbn; lia).
    rewrite Hw. destruct A; [discriminate HA | reflexivity]. }
  assert (Ex : forall now,
             readByte now x
               {| sensorData := sensorData w;
                  serialBuffer := text_of (map snd A); ffCount := 0 |} =
             ({| sensorData := sensorData w; serialBuffer := "";
                 ffCount := 0 |}, None)).
  { intros now. rewrite readByte_printable by assumption.
    rewrite overflowCheck_clear; [reflexivity|].
    cbn [serialBuffer]. rewrite strlen_app, strlen_text_of, length_map, HA.
    cbn. lia. }
  repeat split.
  - exact EA.
  - rewrite readArduinoData_app, EA. cbn [fst snd readArduinoData].
    now rewrite Ex.
  - rewrite readArduinoData_app, EA. cbn [fst snd readArduinoData].
    rewrite Ex.
    rewrite read_printable_run by (trivial; cbn [serialBuffer]; cbn; lia).
    cbn [fst snd app sensorData serialBuffer append ffCount].
    now destruct R.
Qed.

Lemma split_at_100 {X : Type} (l : list X) :
  (100 < List.length l)%nat ->
  exists A x R,
    l = (A ++ x :: R)%list /\ List.length A = 100%nat /\
    firstn 100 l = A /\ firstn 101 l = (A ++ [x])%list.
Proof.
  intros H.
  pose proof (firstn_skipn 100 l) as E.
  pose proof (length_firstn 100 l) as LA.
  rewrite Nat.min_l in LA by lia.
  pose proof (length_skipn 100 l) as LR.
  destruct (skipn 100 l) as [|x R]; [cbn in LR; lia|].
  exists (firstn 100 l), x, R. repeat apply conj.
  - now symmetry.
  - exact LA.
  - reflexivity.
  - set (A := firstn 100 l) in *. rewrite <- E.
    rewrite firstn_app, LA. rewrite firstn_all2 by lia. reflexivity.
Qed.

(** C3. After any byte, from any state, the buffer holds at most 100
    characters, and so it does at every point of any byte sequence read
    since start-up.  A printable byte whose appending makes the length
    exceed 100 leaves the buffer empty and the delimiter counter at 0.  A
    run of 150 printable bytes into an empty buffer hands no message to
    the parser and leaves the store alone; the buffer holds the first 100
    of them after the 100th and is empty after the 101st. *)
Theorem buffer_bound_and_overflow (avail : list (Z * byte)) (w : World)
    (now : Z) (b : byte) :
  strlen (serialBuffer (fst (readByte now b w))) <= 100 /\
  (forall k,
     strlen (serialBuffer (fst (readArduinoData (firstn k avail) world0)))
     <= 100) /\
  (printable b = true ->
   100 < strlen (serialBuffer w ++ String (ascii_of_byte b) "") ->
   readByte now b w =
   ({| sensorData := sensorData w; serialBuffer := ""; ffCount := 0 |},
    None)) /\
  (List.length avail = 150%nat ->
   forallb printable (map snd avail) = true ->
   serialBuffer w = "" ->
   snd (readArduinoData avail w) = [] /\
   sensorData (fst (readArduinoData avail w)) = sensorData w /\
   readArduinoData (firstn 100 avail) w =
     ({| sensorData := sensorData w;
         serialBuffer := text_of (firstn 100 (map snd avail));
         ffCount := 0 |}, []) /\
   strlen (text_of (firstn 100 (map snd avail))) = 100 /\
   readArduinoData (firstn 101 avail) w =
     ({| sensorData := sensorData w; serialBuffer := ""; ffCount := 0 |},
      [])).
Proof.
  split; [apply readByte_bound|].
  split; [intros k; apply readArduinoData_bound; cbn; lia|].
  split.
  - intros Hp Hl. rewrite readByte_printable by assumption.
    now rewrite overflowCheck_clear.
  - intros Hlen Hp Hw.
    destruct (split_at_100 avail) as (A & [t x] & R & E & LA & F100 & F101);
      [lia|].
    assert (LR : List.length R = 49%nat).
    { rewrite E, length_app in Hlen. cbn [List.length] in Hlen. lia. }
    assert (P : forallb printable (map snd A) = true /\
                printable x = true /\
                forallb printable (map snd R) = true).
    { rewrite E, map_app, forallb_app in Hp. cbn [map snd forallb] in Hp.
      now rewrite !andb_true_iff in Hp. }
    destruct P as (PA & Px & PR).
    destruct (read_overflow_run A R t x w) as (E1 & E2 & E3);
      trivial; [lia|].
    rewrite <- E in E3.
    rewrite firstn_map, F100, F101, E1, E2, E3. cbn [fst snd sensorData].
    repeat split.
    rewrite strlen_text_of, length_map, LA. reflexivity.
Qed.

(** C4. On a delimiter byte the counter of consecutive delimiters goes up
    by one; when it reaches 3 the buffer, if it is not empty, is handed to
    the parser as a complete message and cleared, and the counter goes
    back to 0 whether or not there was a message; any other byte puts the
    counter back to 0 and hands over nothing.  So the bytes of "temp", one
    stray 0xFF, "V.val=21" and three 0xFF give the single message
    "tempV.val=21" and set the temperature to 21. *)
Theorem framing_algorithm (now : Z) (b : byte) (w : World) (ts : list Z) :
  strlen (serialBuffer w) <= 100 ->
  (b = xFF -> ffCount w + 1 < 3 ->
   readByte now b w =
   ({| sensorData := sensorData w; serialBuffer := serialBuffer w;
       ffCount := ffCount w + 1 |}, None)) /\
  (b = xFF -> 3 <= ffCount w + 1 -> serialBuffer w <> "" ->
   readByte now b w =
   ({| sensorData := parseArduinoData now (serialBuffer w) (sensorData w);
       serialBuffer := ""; ffCount := 0 |}, Some (serialBuffer w))) /\
  (b = xFF -> 3 <= ffCount w + 1 -> serialBuffer w = "" ->
   readByte now b w =
   ({| sensorData := sensorData w; serialBuffer := ""; ffCount := 0 |},
    None)) /\
  (b <> xFF ->
   ffCount (fst (readByte now b w)) = 0 /\
   snd (readByte now b w) = None /\
   sensorData (fst (readByte now b w)) = sensorData w) /\
  (0 <= ffCount w <= 2 -> 0 <= ffCount (fst (readByte now b w)) <= 2) /\
  (List.length ts = 16%nat ->
   readArduinoData
     (combine ts
        (bytes_of "temp" ++ [xFF] ++ bytes_of "V.val=21" ++
         [xFF; xFF; xFF]))
     world0 =
   ({| sensorData := accept TEMP 21 (nth 15 ts 0) sensorData0;
       serialBuffer := ""; ffCount := 0 |}, ["tempV.val=21"])).
Proof.
  intros Hlen. repeat apply conj.
  - intros -> Hc. rewrite readByte_delim_count by assumption.
    now rewrite overflowCheck_id.
  - intros -> Hc Hne. now apply readByte_delim_emit.
  - intros -> Hc He. now apply readByte_delim_idle.
  - intros Hb. destruct (printable b) eqn:P.
    + rewrite readByte_printable by assumption. cbn [fst snd].
      rewrite overflowCheck_sensorData. repeat split.
      unfold overflowCheck. now destruct (_ >? _).
    + rewrite readByte_noise by assumption. cbn [fst snd].
      rewrite overflowCheck_sensorData. repeat split.
      unfold overflowCheck. now destruct (_ >? _).
  - apply readByte_count.
  - intros Hts.
    do 16 (destruct ts as [|? ts]; [discriminate Hts|]).
    destruct ts; [|discriminate Hts]. reflexivity.
Qed.

(** C5. The bytes of "co2V.val=523" followed by three 0xFF, read from
    start-up, hand that one message to the parser, set the CO2 field to
    523 and [lastUpdate] to the clock reading at the third 0xFF; the
    export that follows sends a JSON text in which the key co2 between
    double quotes (character 34), a colon and 523 occur.  The whole text
    is given, with the clock reading of the export in decimal. *)
Theorem wire_to_export_round_trip (ts : list Z) (now : Z) :
  List.length ts = 15%nat ->
  let wire := combine ts (bytes_of "co2V.val=523" ++ [xFF; xFF; xFF]) in
  let w := fst (readArduinoData wire world0) in
  let q := String "034"%char "" in
  snd (readArduinoData wire world0) = ["co2V.val=523"] /\
  co2 (sensorData w) = 523 /\
  lastUpdate (sensorData w) = nth 14 ts 0 /\
  w = {| sensorData := accept CO2 523 (nth 14 ts 0) sensorData0;
         serialBuffer := ""; ffCount := 0 |} /\
  Contains (content (snd (handleData now w)))
           (String "034"%char ("co2" ++ String "034"%char ":523")) /\
  content (snd (handleData now w)) =
    "{" ++ q ++ "co2" ++ q ++ ":523," ++
    q ++ "pm25" ++ q ++ ":0," ++
    q ++ "o3" ++ q ++ ":0," ++
    q ++ "temp" ++ q ++ ":0," ++
    q ++ "hum" ++ q ++ ":0," ++
    q ++ "tvoc" ++ q ++ ":0," ++
    q ++ "lastUpdate" ++ q ++ ":" ++
    NilZero.string_of_int (Z.to_int now) ++ "}".
Proof.
  intros Hts.
  do 15 (destruct ts as [|? ts]; [discriminate Hts|]).
  destruct ts; [|discriminate Hts].
  intros wire w q. repeat apply conj; try reflexivity.
  exists "{".
  exists ("," ++
    q ++ "pm25" ++ q ++ ":0," ++
    q ++ "o3" ++ q ++ ":0," ++
    q ++ "temp" ++ q ++ ":0," ++
    q ++ "hum" ++ q ++ ":0," ++
    q ++ "tvoc" ++ q ++ ":0," ++
    q ++ "lastUpdate" ++ q ++ ":" ++
    NilZero.string_of_int (Z.to_int now) ++ "}").
  reflexivity.
Qed.

(** C8. Every export sends status 200 and a JSON object whose keys are
    exactly co2, pm25, o3, temp, hum, tvoc and lastUpdate, in that order,
    each between double quotes (character 34) and followed by a colon and
    a decimal number: the six hold the store's current field values and
    lastUpdate holds the clock reading at the export, whatever the store's
    own [lastUpdate] is.  The world after the export is the world before
    it.  For a store holding 523, 12, 30, -7, 40 and 87, last updated at
    1000 and exported at 123456, the text is spelled out. *)
Theorem snapshot_export (now : Z) (w : World) :
  let sd := sensorData w in
  let r := snd (handleData now w) in
  let q := String "034"%char "" in
  let dec := fun z : Z => NilZero.string_of_int (Z.to_int z) in
  fst (handleData now w) = w /\
  code r = 200 /\
  content_type r = "application/json" /\
  content r = Json.serializeJson (snapshotDoc now sd) /\
  snapshotDoc now sd =
    [("co2", co2 sd); ("pm25", pm25 sd); ("o3", o3 sd); ("temp", temp sd);
     ("hum", hum sd); ("tvoc", tvoc sd); ("lastUpdate", now)] /\
  Json.keys (snapshotDoc now sd) =
    ["co2"; "pm25"; "o3"; "temp"; "hum"; "tvoc"; "lastUpdate"] /\
  NoDup (Json.keys (snapshotDoc now sd)) /\
  Json.get (snapshotDoc now sd) "lastUpdate" = Some now /\
  content r =
    "{" ++ q ++ "co2" ++ q ++ ":" ++ dec (co2 sd) ++ "," ++
    q ++ "pm25" ++ q ++ ":" ++ dec (pm25 sd) ++ "," ++
    q ++ "o3" ++ q ++ ":" ++ dec (o3 sd) ++ "," ++
    q ++ "temp" ++ q ++ ":" ++ dec (temp sd) ++ "," ++
    q ++ "hum" ++ q ++ ":" ++ dec (hum sd) ++ "," ++
    q ++ "tvoc" ++ q ++ ":" ++ dec (tvoc sd) ++ "," ++
    q ++ "lastUpdate" ++ q ++ ":" ++ dec now ++ "}" /\
  content
    (snd (handleData 123456
            {| sensorData :=
                 {| co2 := 523; pm25 := 12; o3 := 30; temp := -7;
                    hum := 40; tvoc := 87; lastUpdate := 1000 |};
               serialBuffer := "humV.v"; ffCount := 1 |})) =
    "{" ++ q ++ "co2" ++ q ++ ":523," ++
    q ++ "pm25" ++ q ++ ":12," ++
    q ++ "o3" ++ q ++ ":30," ++
    q ++ "temp" ++ q ++ ":-7," ++
    q ++ "hum" ++ q ++ ":40," ++
    q ++ "tvoc" ++ q ++ ":87," ++
    q ++ "lastUpdate" ++ q ++ ":123456}".
Proof.
  intros sd r q dec. subst r sd.
  repeat apply conj; try reflexivity.
  - cbn. repeat constructor; cbn; intuition discriminate.
  - unfold handleData. cbn [snd content].
    change (snapshotDoc now (sensorData w)) with
      [("co2", co2 (sensorData w)); ("pm25", pm25 (sensorData w));
       ("o3", o3 (sensorData w)); ("temp", temp (sensorData w));
       ("hum", hum (sensorData w)); ("tvoc", tvoc (sensorData w));
       ("lastUpdate", now)].
    unfold Json.serializeJson. cbn [Json.members Json.member fst snd].
    rewrite !append_assoc. reflexivity.
Qed.

(** ** The theorems at concrete inputs *)

Lemma store_range_invariant_witness :
  let msgs := [(1, "co2V.val=523"); (2, "co2V.val=0")] in
  in_range CO2 (field CO2 (process msgs sensorData0)) = true /\
  field CO2 (process msgs sensorData0) = 523 /\
  parseArduinoData 3 "co2V.val=20000" (process msgs sensorData0) =
  process msgs sensorData0.
Proof.
  intros msgs.
  destruct (store_range_invariant msgs 2 CO2 3 "co2V.val=20000")
    as (_ & H & _ & _).
  exact (conj
           (H (ex_intro _ 523
                 (ex_intro _ 1
                    (ex_intro _ "523"
                       (conj (or_introl eq_refl) (conj eq_refl eq_refl))))))
           (conj eq_refl eq_refl)).
Defined.

Lemma per_field_acceptance_witness :
  parseArduinoData 7 "humV.val=100" sensorData0 = accept HUM 100 7 sensorData0
  /\ parseArduinoData 7 "humV.val=101" sensorData0 = sensorData0.
Proof.
  split.
  - exact (proj1 (per_field_acceptance HUM (literal_of_Z 100) 7 sensorData0)).
  - exact (proj1 (per_field_acceptance HUM (literal_of_Z 101) 7 sensorData0)).
Defined.

Lemma buffer_bound_and_overflow_witness :
  let run := at_time 0 (repeat Byte.x41 150) in
  let full :=
    {| sensorData := sensorData0;
       serialBuffer := text_of (repeat Byte.x41 100); ffCount := 0 |} in
  (List.length run = 150%nat /\
   forallb printable (map snd run) = true /\
   serialBuffer world0 = "" /\
   snd (readArduinoData run world0) = [] /\
   readArduinoData (firstn 101 run) world0 = (world0, [])) /\
  (printable Byte.x41 = true /\
   100 < strlen (serialBuffer full ++ String (ascii_of_byte Byte.x41) "") /\
   readByte 0 Byte.x41 full = (world0, None)).
Proof.
  intros run full.
  pose proof (buffer_bound_and_overflow run world0 0 Byte.x41) as T1.
  pose proof (buffer_bound_and_overflow run full 0 Byte.x41) as T2.
  destruct T1 as (_ & _ & _ & H).
  destruct (H eq_refl eq_refl eq_refl) as (H1 & _ & _ & _ & H5).
  destruct T2 as (_ & _ & H' & _).
  exact (conj (conj eq_refl (conj eq_refl (conj eq_refl (conj H1 H5))))
              (conj eq_refl (conj eq_refl (H' eq_refl eq_refl)))).
Defined.

Lemma framing_algorithm_witness :
  let w := {| sensorData := sensorData0; serialBuffer := "tempV.val=21";
              ffCount := 2 |} in
  strlen (serialBuffer w) <= 100 /\
  readByte 9 xFF w =
    ({| sensorData := accept TEMP 21 9 sensorData0; serialBuffer := "";
        ffCount := 0 |}, Some "tempV.val=21") /\
  readArduinoData
    (combine (repeat 9 16)
       (bytes_of "temp" ++ [xFF] ++ bytes_of "V.val=21" ++ [xFF; xFF; xFF]))
    world0 =
    ({| sensorData := accept TEMP 21 9 sensorData0; serialBuffer := "";
        ffCount := 0 |}, ["tempV.val=21"]).
Proof.
  intros w.
  assert (L : strlen (serialBuffer w) <= 100) by (vm_compute; discriminate).
  assert (C : 3 <= ffCount w + 1) by (vm_compute; discriminate).
  assert (N : serialBuffer w <> "") by discriminate.
  destruct (framing_algorithm 9 xFF w (repeat 9 16) L)
    as (_ & H2 & _ & _ & _ & H6).
  exact (conj L (conj (H2 eq_refl C N) (H6 eq_refl))).
Defined.

Lemma wire_to_export_round_trip_witness :
  let wire :=
    combine (repeat 1000 15)
      (bytes_of "co2V.val=523" ++ [xFF; xFF; xFF]) in
  List.length (repeat 1000 15) = 15%nat /\
  co2 (sensorData (fst (readArduinoData wire world0))) = 523 /\
  lastUpdate (sensorData (fst (readArduinoData wire world0))) = 1000 /\
  Contains
    (content (snd (handleData 2000 (fst (readArduinoData wire world0)))))
    (String "034"%char ("co2" ++ String "034"%char ":523")).
Proof.
  intros wire.
  destruct (wire_to_export_round_trip (repeat 1000 15) 2000 eq_refl)
    as (_ & H2 & H3 & _ & H5 & _).
  exact (conj eq_refl (conj H2 (conj H3 H5))).
Defined.

Lemma silent_rejection_witness :
  let sd := accept HUM 40 3 sensorData0 in
  unknown_command "foo.val=1" = true /\
  in_range HUM (toInt "150") = false /\
  parseArduinoData 5 "foo.val=1" sd = sd /\
  parseArduinoData 5 "humV.val=150" sd = sd.
Proof.
  intros sd.
  destruct (silent_rejection 5 sd "foo.val=1" HUM "150")
    as (H1 & H2 & _).
  exact (conj eq_refl (conj eq_refl (conj (H1 eq_refl) (H2 eq_refl)))).
Defined.

Lemma malformed_payload_is_zero_witness :
  non_numeric "n/a" = true /\
  toInt "n/a" = 0 /\
  parseArduinoData 5 "humV.val=n/a" (accept HUM 40 3 sensorData0) =
    accept HUM 0 5 (accept HUM 40 3 sensorData0).
Proof.
  split; [reflexivity|].
  exact (malformed_payload_is_zero HUM "n/a" 5
           (accept HUM 40 3 sensorData0) eq_refl).
Defined.

Lemma acceptance_idempotent_witness :
  let sd1 := parseArduinoData 1000 "tvocV.val=87" sensorData0 in
  let sd2 := parseArduinoData 2000 "tvocV.val=87" sd1 in
  in_range TVOC (toInt "87") = true /\
  tvoc sd1 = 87 /\ tvoc sd2 = tvoc sd1 /\
  lastUpdate sd1 = 1000 /\ lastUpdate sd2 = 2000 /\
  lastUpdate sd1 < lastUpdate sd2.
Proof.
  intros sd1 sd2.
  destruct (acceptance_idempotent TVOC "87" 1000 2000 sensorData0 eq_refl)
    as (H1 & H2 & _ & H4 & H5 & _ & H7 & _).
  exact (conj eq_refl
           (conj H1 (conj H2 (conj H4 (conj H5 (proj2 H7 eq_refl)))))).
Defined.

Lemma at_most_one_field_witness :
  (List.length
     (changed_fields sensorData0
        (parseArduinoData 5 "o3V.val=30" sensorData0)) <= 1)%nat.
Proof.
  exact (proj1 (at_most_one_field 5 "o3V.val=30" sensorData0)).
Defined.

(** ** Where the claims as worded fail *)

(** C7 as worded: a payload that is not an integer literal does not
    always parse as 0.  "12abc" is read as 12 and sets the humidity to 12;
    "5x" is read as 5 and is accepted for CO2. *)
Lemma malformed_payload_counterexample :
  integer_text "12abc" = false /\
  toInt "12abc" = 12 /\
  parseArduinoData 5 "humV.val=12abc" sensorData0 =
    accept HUM 12 5 sensorData0 /\
  integer_text "5x" = false /\
  parseArduinoData 5 "co2V.val=5x" sensorData0 =
    accept CO2 5 5 sensorData0 /\
  parseArduinoData 5 "co2V.val=5x" sensorData0 <> sensorData0 /\
  ~ (forall rest, integer_text rest = false -> toInt rest = 0).
Proof.
  repeat apply conj; try reflexivity.
  - discriminate.
  - intros H. specialize (H "12abc" eq_refl). discriminate H.
Qed.

(** C9 as worded: [lastUpdate] does not advance on each of two
    acceptances when both happen at the same clock reading.  The same
    valid message processed twice at reading 5, directly or as two frames
    on the wire, leaves [lastUpdate] at 5 after the first and at 5 after
    the second. *)
Lemma acceptance_idempotent_counterexample :
  let sd1 := parseArduinoData 5 "tvocV.val=87" sensorData0 in
  let sd2 := parseArduinoData 5 "tvocV.val=87" sd1 in
  in_range TVOC (toInt "87") = true /\
  tvoc sd1 = 87 /\ tvoc sd2 = 87 /\
  lastUpdate sd1 = 5 /\ lastUpdate sd2 = 5 /\
  ~ (lastUpdate sd1 < lastUpdate sd2) /\
  readArduinoData (frame 5 "tvocV.val=87") world0 =
    ({| sensorData := sd1; serialBuffer := ""; ffCount := 0 |},
     ["tvocV.val=87"]) /\
  readArduinoData (frame 5 "tvocV.val=87" ++ frame 5 "tvocV.val=87")
    world0 =
    ({| sensorData := sd2; serialBuffer := ""; ffCount := 0 |},
     ["tvocV.val=87"; "tvocV.val=87"]).
Proof.
  intros sd1 sd2. repeat apply conj; try reflexivity.
  intros H. discriminate H.
Qed.

(** * Further properties of the frame reader *)

Ltac split_ifs :=
  repeat match goal with
  | |- context [if ?c then _ else _] => destruct c eqn:?
  end.

Lemma is_xFF_false (b : byte) : is_xFF b = false -> b <> xFF.
Proof.
  unfold is_xFF. intros H E. apply xFF_iff in E. congruence.
Qed.

Lemma all_printable_app (s t : string) :
  all_printable (s ++ t) = all_printable s && all_printable t.
Proof.
  induction s as [|c s IH]; cbn [append all_printable]; [reflexivity|].
  now rewrite IH, andb_assoc.
Qed.

Lemma strlen_String (c : ascii) (s : string) :
  strlen (String c s) = 1 + strlen s.
Proof. unfold strlen. cbn [String.length]. lia. Qed.

(** What one iteration hands to the parser, and what it does to the
    store. *)
Lemma readByte_emission (now : Z) (b : byte) (w : World) :
  match snd (readByte now b w) with
  | Some d =>
      d = serialBuffer w /\ d <> "" /\ b = xFF /\
      fst (readByte now b w) =
      {| sensorData := parseArduinoData now d (sensorData w);
         serialBuffer := ""; ffCount := 0 |}
  | None => sensorData (fst (readByte now b w)) = sensorData w
  end.
Proof.
  unfold readByte. split_ifs; cbn [fst snd];
    rewrite ?overflowCheck_sensorData; try reflexivity.
  repeat apply conj; try reflexivity.
  - intros E. rewrite E in *. discriminate.
  - now apply xFF_iff.
Qed.

Lemma readByte_keeps_printable (now : Z) (b : byte) (w : World) :
  all_printable (serialBuffer w) = true ->
  all_printable (serialBuffer (fst (readByte now b w))) = true.
Proof.
  intros H. unfold readByte, overflowCheck.
  split_ifs; cbn [fst serialBuffer all_printable]; trivial.
  rewrite all_printable_app, H. cbn [all_printable].
  rewrite byte_of_ascii_of_byte. unfold printable.
  now rewrite andb_true_r.
Qed.

Lemma read_keeps_wellformed (avail : list (Z * byte)) (w : World) :
  all_printable (serialBuffer w) = true ->
  strlen (serialBuffer w) <= 100 ->
  Forall (fun m => sendable m = true) (snd (readArduinoData avail w)) /\
  all_printable (serialBuffer (fst (readArduinoData avail w))) = true.
Proof.
  revert w. induction avail as [| [now x] avail IH]; intros w Hp Hl.
  - cbn. auto.
  - cbn [readArduinoData].
    pose proof (readByte_emission now x w) as E.
    pose proof (readByte_keeps_printable now x w Hp) as P1.
    pose proof (readByte_bound now x w) as B1.
    destruct (readByte now x w) as [w1 m]. cbn [fst snd] in *.
    destruct (IH w1 P1 B1) as [F P2].
    destruct (readArduinoData avail w1) as [w2 ms]. cbn [fst snd] in *.
    split; [|exact P2].
    destruct m as [d|]; [|exact F].
    constructor; [|exact F].
    destruct E as (-> & Hne & _).
    unfold sendable. rewrite Hp, andb_true_r.
    apply andb_true_iff. split.
    + apply negb_true_iff, String.eqb_neq. exact Hne.
    + now apply Z.leb_le.
Qed.

(** Bytes other than the delimiter, printable or not, while they fit. *)
Lemma read_noisy_run (avail : list (Z * byte)) (w : World) :
  forallb (fun b => negb (is_xFF b)) (map snd avail) = true ->
  strlen (serialBuffer w) +
    Z.of_nat (List.length (filter printable (map snd avail))) <= 100 ->
  readArduinoData avail w =
  ({| sensorData := sensorData w;
      serialBuffer :=
        serialBuffer w ++ text_of (filter printable (map snd avail));
      ffCount := match avail with [] => ffCount w | _ => 0 end |}, []).
Proof.
  revert w. induction avail as [| [now x] avail IH]; intros w Hn Hl.
  - cbn. rewrite append_empty_r. now destruct w.
  - cbn [map snd forallb] in Hn. apply andb_true_iff in Hn as [Hx Hn].
    apply negb_true_iff, is_xFF_false in Hx.
    cbn [map snd filter] in Hl |- *. cbn [readArduinoData].
    pose proof (strlen_nonneg (serialBuffer w)) as H0.
    destruct (printable x) eqn:Px.
    + cbn [List.length] in Hl.
      rewrite (readByte_printable now x w Px).
      rewrite overflowCheck_id
        by (cbn [serialBuffer]; rewrite strlen_app, strlen_String;
            unfold strlen at 2; cbn [String.length]; lia).
      rewrite IH; cbn [serialBuffer sensorData ffCount]; trivial.
      * rewrite text_of_cons, append_assoc. cbn [append].
        now destruct avail.
      * rewrite strlen_app, strlen_String. unfold strlen at 2.
        cbn [String.length]. lia.
    + rewrite (readByte_noise now x w Hx Px).
      rewrite overflowCheck_id by (cbn [serialBuffer]; lia).
      rewrite IH; cbn [serialBuffer sensorData ffCount]; trivial.
      now destruct avail.
Qed.

(** The three delimiters after a message. *)
Lemma read_terminator (t1 t2 t3 : Z) (w : World) :
  ffCount w = 0 -> strlen (serialBuffer w) <= 100 ->
  readArduinoData [(t1, xFF); (t2, xFF); (t3, xFF)] w =
  if String.eqb (serialBuffer w) "" then
    ({| sensorData := sensorData w; serialBuffer := ""; ffCount := 0 |}, [])
  else
    ({| sensorData := parseArduinoData t3 (serialBuffer w) (sensorData w);
        serialBuffer := ""; ffCount := 0 |}, [serialBuffer w]).
Proof.
  intros Hc Hl. cbn [readArduinoData].
  rewrite readByte_delim_count by lia.
  rewrite overflowCheck_id by exact Hl.
  rewrite readByte_delim_count by (cbn [ffCount]; lia).
  rewrite overflowCheck_id by exact Hl.
  destruct (String.eqb_spec (serialBuffer w) "") as [E | E].
  - rewrite readByte_delim_idle by (cbn [ffCount serialBuffer]; trivial; lia).
    reflexivity.
  - rewrite readByte_delim_emit by (cbn [ffCount serialBuffer]; trivial; lia).
    reflexivity.
Qed.

Lemma read_noisy_frame (run : list (Z * byte)) (t1 t2 t3 : Z) (w : World) :
  forallb (fun b => negb (is_xFF b)) (map snd run) = true ->
  serialBuffer w = "" ->
  text_of (filter printable (map snd run)) <> "" ->
  strlen (text_of (filter printable (map snd run))) <= 100 ->
  readArduinoData (run ++ [(t1, xFF); (t2, xFF); (t3, xFF)]) w =
  ({| sensorData :=
        parseArduinoData t3 (text_of (filter printable (map snd run)))
          (sensorData w);
      serialBuffer := ""; ffCount := 0 |},
   [text_of (filter printable (map snd run))]).
Proof.
  intros Hn Hw Hne Hl.
  rewrite readArduinoData_app.
  rewrite (read_noisy_run run w)
    by (trivial; rewrite Hw; rewrite strlen_text_of in Hl; cbn; lia).
  rewrite Hw. cbn [fst snd append app].
  assert (C : match run with [] => ffCount w | _ :: _ => 0 end = 0).
  { destruct run; [|reflexivity]. now elim Hne. }
  rewrite C, read_terminator by (cbn [ffCount serialBuffer]; trivial).
  cbn [serialBuffer sensorData].
  destruct (String.eqb_spec (text_of (filter printable (map snd run))) "");
    [contradiction | reflexivity].
Qed.

Lemma map_snd_at_time (now : Z) (bs : list byte) :
  map snd (at_time now bs) = bs.
Proof.
  unfold at_time. rewrite map_map. cbn [snd]. apply map_id.
Qed.

Lemma printable_bytes_of (m : string) :
  all_printable m = true ->
  forallb printable (bytes_of m) = true.
Proof.
  unfold bytes_of, list_byte_of_string.
  induction m as [|c m IH]; cbn [all_printable list_ascii_of_string map forallb];
    [reflexivity|].
  rewrite andb_true_iff. intros [Hc Hm]. now rewrite Hc, IH.
Qed.

Lemma filter_all {X : Type} (p : X -> bool) (l : list X) :
  forallb p l = true -> filter p l = l.
Proof.
  induction l as [|x l IH]; cbn [forallb filter]; [reflexivity|].
  rewrite andb_true_iff. intros [Hx Hl]. now rewrite Hx, IH.
Qed.

Lemma printable_no_xFF (l : list byte) :
  forallb printable l = true ->
  forallb (fun b => negb (is_xFF b)) l = true.
Proof.
  induction l as [|x l IH]; cbn [forallb]; [reflexivity|].
  rewrite andb_true_iff. intros [Hx Hl].
  unfold is_xFF at 1. now rewrite (printable_not_xFF x Hx), IH.
Qed.

Lemma sendable_spec (m : string) :
  sendable m = true ->
  m <> "" /\ strlen m <= 100 /\ all_printable m = true.
Proof.
  unfold sendable. rewrite !andb_true_iff, negb_true_iff, Z.leb_le.
  intros [[H1 H2] H3]. repeat split; trivial.
  now apply String.eqb_neq.
Qed.

Lemma read_frame (now : Z) (m : string) (w : World) :
  sendable m = true -> serialBuffer w = "" ->
  readArduinoData (frame now m) w =
  ({| sensorData := parseArduinoData now m (sensorData w);
      serialBuffer := ""; ffCount := 0 |}, [m]).
Proof.
  intros Hs Hw. apply sendable_spec in Hs as (Hne & Hl & Hp).
  apply printable_bytes_of in Hp.
  unfold frame, at_time. rewrite map_app. cbn [map].
  fold (at_time now (bytes_of m)).
  pose proof (string_of_list_byte_of_string m) as RT.
  fold (bytes_of m) in RT. fold (text_of (bytes_of m)) in RT.
  rewrite read_noisy_frame; rewrite ?map_snd_at_time, ?(filter_all _ _ Hp), ?RT;
    trivial.
  now apply printable_no_xFF.
Qed.

Lemma read_delimiters (run : list (Z * byte)) (w : World) :
  Forall (fun x => snd x = xFF) run ->
  serialBuffer w = "" -> 0 <= ffCount w <= 2 ->
  readArduinoData run w =
  ({| sensorData := sensorData w; serialBuffer := "";
      ffCount := (ffCount w + Z.of_nat (List.length run)) mod 3 |}, []).
Proof.
  revert w. induction run as [| [t x] run IH]; intros w Hr Hw Hc.
  - cbn [readArduinoData List.length]. rewrite Z.add_0_r, Z.mod_small by lia.
    destruct w; cbn in *; now subst.
  - inversion Hr as [| ? ? Hx Hr']; subst. cbn [snd] in Hx. subst x.
    cbn [readArduinoData].
    destruct (Z.ltb_spec (ffCount w + 1) 3) as [Hlt | Hge].
    + rewrite readByte_delim_count by assumption.
      rewrite overflowCheck_id
        by (cbn [serialBuffer]; rewrite Hw; cbn; lia).
      rewrite IH; cbn [serialBuffer sensorData ffCount]; trivial; [|lia].
      do 3 f_equal. cbn [List.length]. lia.
    + rewrite readByte_delim_idle by assumption.
      rewrite IH; cbn [serialBuffer sensorData ffCount]; trivial; [|lia].
      do 2 f_equal. cbn [List.length].
      replace (ffCount w + Z.of_nat (S (List.length run)))
        with (0 + Z.of_nat (List.length run) + 1 * 3) by lia.
      now rewrite Z.mod_add by lia.
Qed.

Lemma read_store_is_process (avail : list (Z * byte)) (w : World) :
  exists ts,
    List.length ts = List.length (snd (readArduinoData avail w)) /\
    incl ts (map fst avail) /\
    sensorData (fst (readArduinoData avail w)) =
    process (combine ts (snd (readArduinoData avail w))) (sensorData w).
Proof.
  revert w. induction avail as [| [now x] avail IH]; intros w.
  - exists []. cbn. repeat split. apply incl_refl.
  - cbn [readArduinoData].
    pose proof (readByte_emission now x w) as E.
    destruct (readByte now x w) as [w1 m]. cbn [fst snd] in E.
    destruct (IH w1) as (ts & Hlen & Hin & Hs).
    destruct (readArduinoData avail w1) as [w2 ms]. cbn [fst snd] in *.
    destruct m as [d|].
    + destruct E as (_ & _ & _ & ->). cbn [sensorData] in Hs.
      exists (now :: ts). cbn [List.length combine map fst].
      repeat split.
      * now rewrite Hlen.
      * intros t [<- | Ht]; [now left | right; now apply Hin].
      * exact Hs.
    + exists ts. cbn [map fst]. repeat split; trivial.
      * intros t Ht. right. now apply Hin.
      * now rewrite <- E.
Qed.

(** X1. Whatever bytes arrive, a message handed to the parser is never
    empty, never longer than 100 characters and made of printable ASCII
    only, provided the buffer started that way (as it does at start-up);
    the buffer itself stays printable and within 100 characters. *)
Theorem emitted_messages_wellformed (avail : list (Z * byte)) (w : World) :
  all_printable (serialBuffer w) = true ->
  strlen (serialBuffer w) <= 100 ->
  let r := readArduinoData avail w in
  Forall (fun m => m <> "" /\ strlen m <= 100 /\ all_printable m = true)
         (snd r) /\
  all_printable (serialBuffer (fst r)) = true /\
  strlen (serialBuffer (fst r)) <= 100.
Proof.
  intros Hp Hl r. subst r.
  destruct (read_keeps_wellformed avail w Hp Hl) as [F P].
  repeat split; trivial.
  - eapply Forall_impl; [|exact F]. intros m. apply sendable_spec.
  - now apply readArduinoData_bound.
Qed.

(** X2. Bytes that are neither printable nor 0xFF (nulls, control
    characters, 0x7F to 0xFE) are dropped wherever they fall: a run
    without 0xFF followed by three 0xFF, read into an empty buffer, hands
    over exactly the printable bytes of the run, in order, as one message,
    when there are between 1 and 100 of them. *)
Theorem noisy_frame_reassembled (run : list (Z * byte)) (t1 t2 t3 : Z)
    (w : World) :
  forallb (fun b => negb (is_xFF b)) (map snd run) = true ->
  serialBuffer w = "" ->
  let payload := text_of (filter printable (map snd run)) in
  payload <> "" -> strlen payload <= 100 ->
  readArduinoData (run ++ [(t1, xFF); (t2, xFF); (t3, xFF)]) w =
  ({| sensorData := parseArduinoData t3 payload (sensorData w);
      serialBuffer := ""; ffCount := 0 |}, [payload]).
Proof.
  intros Hn Hw payload Hne Hl. now apply read_noisy_frame.
Qed.

(** X3. Framing round trip: any non-empty printable text of at most 100
    characters, sent as its bytes and three 0xFF into an empty buffer,
    comes out as exactly that text, is parsed once, and leaves the buffer
    empty and the counter at 0. *)
Theorem frame_round_trip (now : Z) (m : string) (w : World) :
  sendable m = true -> serialBuffer w = "" ->
  readArduinoData (frame now m) w =
  ({| sensorData := parseArduinoData now m (sensorData w);
      serialBuffer := ""; ffCount := 0 |}, [m]).
Proof. apply read_frame. Qed.

(** X4. A stream of framed messages is read as those messages, in order,
    and the store ends as the parser leaves it after them. *)
Theorem stream_of_frames (msgs : list (Z * string)) (w : World) :
  forallb (fun m => sendable (snd m)) msgs = true ->
  serialBuffer w = "" ->
  readArduinoData (List.concat (map (fun m => frame (fst m) (snd m)) msgs))
    w =
  ({| sensorData := process msgs (sensorData w);
      serialBuffer := "";
      ffCount := match msgs with [] => ffCount w | _ => 0 end |},
   map snd msgs).
Proof.
  revert w. induction msgs as [| [now m] msgs IH]; intros w Hs Hw.
  - cbn. destruct w; cbn in *; now subst.
  - cbn [forallb snd] in Hs. apply andb_true_iff in Hs as [Hm Hs].
    cbn [map List.concat fst snd]. rewrite readArduinoData_app.
    rewrite (read_frame now m w Hm Hw). cbn [fst snd].
    rewrite IH by trivial. cbn [fst snd sensorData ffCount app].
    unfold process. cbn [fold_left fst snd]. now destruct msgs.
Qed.

(** X5. Delimiters alone do nothing: any number of 0xFF bytes read into
    an empty buffer hand over no message and leave store and buffer as
    they were; the counter ends at the number of delimiters seen so far
    modulo 3. *)
Theorem delimiter_run_idle (run : list (Z * byte)) (w : World) :
  Forall (fun x => snd x = xFF) run ->
  serialBuffer w = "" -> 0 <= ffCount w <= 2 ->
  readArduinoData run w =
  ({| sensorData := sensorData w; serialBuffer := "";
      ffCount := (ffCount w + Z.of_nat (List.length run)) mod 3 |}, []).
Proof. apply read_delimiters. Qed.

(** X6. A message that is too long loses its head: of a run of more than
    100 printable bytes (here 101 to 201) read into an empty buffer and
    closed by three 0xFF, the first 101 bytes are thrown away; what
    follows them is handed over as the message, and nothing is handed
    over when nothing follows. *)
Theorem oversized_message_truncated (A R : list (Z * byte)) (t : Z)
    (x : byte) (t1 t2 t3 : Z) (w : World) :
  List.length A = 100%nat -> (List.length R <= 100)%nat ->
  forallb printable (map snd A) = true -> printable x = true ->
  forallb printable (map snd R) = true ->
  serialBuffer w = "" ->
  readArduinoData
    (A ++ (t, x) :: R ++ [(t1, xFF); (t2, xFF); (t3, xFF)]) w =
  match R with
  | [] =>
      ({| sensorData := sensorData w; serialBuffer := ""; ffCount := 0 |},
       [])
  | _ :: _ =>
      ({| sensorData :=
            parseArduinoData t3 (text_of (map snd R)) (sensorData w);
          serialBuffer := ""; ffCount := 0 |}, [text_of (map snd R)])
  end.
Proof.
  intros HA HR PA Px PR Hw.
  destruct (read_overflow_run A R t x w HA HR PA Px PR Hw) as (_ & _ & E).
  rewrite app_comm_cons, app_assoc, readArduinoData_app, E.
  cbn [fst snd app].
  rewrite read_terminator;
    [| reflexivity
     | cbn [serialBuffer]; rewrite strlen_text_of, length_map; lia].
  cbn [serialBuffer sensorData].
  destruct R as [| [t' y] R]; reflexivity.
Qed.

(** X7. The reader changes the store through the parser only: after any
    bytes, from any state, the store is what the parser makes of the
    messages handed over, in order, each at the clock reading of the byte
    that completed it. *)
Theorem store_follows_emitted (avail : list (Z * byte)) (w : World) :
  exists ts,
    List.length ts = List.length (snd (readArduinoData avail w)) /\
    incl ts (map fst avail) /\
    sensorData (fst (readArduinoData avail w)) =
    process (combine ts (snd (readArduinoData avail w))) (sensorData w).
Proof. apply read_store_is_process. Qed.

(** X8. Whatever bytes have arrived since start-up, noise included, each
    field of the store is 0 or within its declared range. *)
Theorem stream_range_invariant (avail : list (Z * byte)) (f : Field) :
  let sd := sensorData (fst (readArduinoData avail world0)) in
  field f sd = 0 \/ in_range f (field f sd) = true.
Proof.
  intros sd. subst sd.
  destruct (read_store_is_process avail world0) as (ts & _ & _ & ->).
  change (sensorData world0) with sensorData0.
  destruct (store_ok_process
              (combine ts (snd (readArduinoData avail world0))) f)
    as [H0 | (now & rest & _ & _ & Hr)]; [now left | now right].
Qed.

(** X9. Reading is independent of how the bytes are split over calls:
    reading [a] and then [b] gives the state and the messages of reading
    [a ++ b] at once. *)
Theorem chunked_reading (a b : list (Z * byte)) (w : World) :
  let r1 := readArduinoData a w in
  let r2 := readArduinoData b (fst r1) in
  readArduinoData (a ++ b) w = (fst r2, (snd r1 ++ snd r2)%list).
Proof. intros r1 r2. apply readArduinoData_app. Qed.

(** * Further properties of the parser *)

Lemma skip_space_all_space (ws s : string) :
  all_space ws = true -> skip_space (ws ++ s) = skip_space s.
Proof.
  induction ws as [|c ws IH]; cbn [all_space append]; [reflexivity|].
  rewrite andb_true_iff. intros [Hc Hs]. cbn [skip_space].
  rewrite Hc. now apply IH.
Qed.

Lemma digits_stop (acc : Z) (t : string) :
  starts_with_digit t = false -> digits acc t = acc.
Proof.
  destruct t as [|c t]; cbn [starts_with_digit digits]; [reflexivity|].
  destruct (digit_of c); [discriminate | reflexivity].
Qed.

Lemma digits_uint_tail (d : Decimal.uint) (tail : string) (acc : Z) :
  starts_with_digit tail = false ->
  digits acc (NilEmpty.string_of_uint d ++ tail) =
  digits acc (NilEmpty.string_of_uint d).
Proof.
  intros H. revert acc.
  induction d; intros acc; cbn [NilEmpty.string_of_uint append digits];
    [now apply digits_stop | ..]; eval_digit; apply IHd.
Qed.

Lemma digits_literal_tail (d : Decimal.uint) (tail : string) (acc : Z) :
  starts_with_digit tail = false ->
  digits acc (NilZero.string_of_uint d ++ tail) =
  digits acc (NilZero.string_of_uint d).
Proof.
  intros H.
  destruct d; try (now apply digits_uint_tail).
  cbn [NilZero.string_of_uint append digits]. eval_digit.
  now rewrite digits_stop.
Qed.

Lemma toInt_literal_tail (l : Literal) (ws tail : string) :
  all_space ws = true -> starts_with_digit tail = false ->
  toInt (ws ++ literal_text l ++ tail) = toInt (literal_text l).
Proof.
  intros Hw Ht. unfold toInt. rewrite skip_space_all_space by assumption.
  destruct l as [[| |] d]; unfold literal_text; cbn [lit_sign lit_digits].
  - change ("" ++ NilZero.string_of_uint d) with (NilZero.string_of_uint d).
    pose proof (digits_literal_tail d tail 0 Ht) as E.
    destruct d; cbn in E |- *; now rewrite E.
  - cbn. now rewrite digits_literal_tail.
  - cbn. now rewrite digits_literal_tail.
Qed.

Lemma accepts_prefixed (f : Field) (rest : string) :
  accepts (prefix_of f ++ rest) = in_range f (toInt rest).
Proof.
  unfold accepts, all_fields. cbn [existsb].
  destruct f; unfold prefix_of; eval_startsWith;
    repeat match goal with
    | |- context [substring (?p ++ rest) (String.length ?p)] =>
        rewrite (substring_app p rest)
    end;
    cbn [andb orb]; now rewrite ?orb_false_r.
Qed.

Lemma accepts_unknown (data : string) :
  unknown_command data = true -> accepts data = false.
Proof.
  unfold unknown_command, accepts, all_fields. cbn [forallb existsb].
  rewrite !andb_true_iff, !negb_true_iff.
  intros (H1 & H2 & H3 & H4 & H5 & H6 & _).
  now rewrite H1, H2, H3, H4, H5, H6.
Qed.

Lemma parse_accepts (now : Z) (data : string) (sd : SensorData) :
  (accepts data = true ->
   lastUpdate (parseArduinoData now data sd) = now) /\
  (accepts data = false -> parseArduinoData now data sd = sd).
Proof.
  destruct (unknown_command data) eqn:U.
  - rewrite (accepts_unknown data U), (parse_unknown data now sd U).
    split; [discriminate | reflexivity].
  - destruct (known_command data U) as (f & rest & ->).
    rewrite accepts_prefixed, parse_prefixed.
    destruct (in_range f (toInt rest)); split; try discriminate; reflexivity.
Qed.

(** X10. The number stops at the first character that is not a digit and
    may follow white space: text after the literal (a unit, say) and white
    space before it change nothing to what the parser does with a message,
    and the value read is the literal's, saturated to 32 bits. *)
Theorem trailing_text_ignored (f : Field) (l : Literal) (ws tail : string)
    (now : Z) (sd : SensorData) :
  all_space ws = true -> starts_with_digit tail = false ->
  toInt (ws ++ literal_text l ++ tail) = saturate (literal_value l) /\
  parseArduinoData now (prefix_of f ++ ws ++ literal_text l ++ tail) sd =
  parseArduinoData now (prefix_of f ++ literal_text l) sd.
Proof.
  intros Hw Ht.
  pose proof (toInt_literal_tail l ws tail Hw Ht) as E.
  split.
  - now rewrite E, toInt_literal.
  - now rewrite !parse_prefixed, E.
Qed.

(** X11. Messages for different fields do not interfere: whatever their
    payloads and arrival times, processing one and then the other leaves
    all six fields as processing them in the other order does. *)
Theorem different_fields_commute (f g : Field) (r1 r2 : string)
    (t1 t2 t1' t2' : Z) (sd : SensorData) (h : Field) :
  f <> g ->
  field h
    (parseArduinoData t2 (prefix_of g ++ r2)
       (parseArduinoData t1 (prefix_of f ++ r1) sd)) =
  field h
    (parseArduinoData t1' (prefix_of f ++ r1)
       (parseArduinoData t2' (prefix_of g ++ r2) sd)).
Proof.
  intros Hfg. rewrite !parse_prefixed.
  destruct (in_range f (toInt r1)), (in_range g (toInt r2)); try reflexivity;
    destruct (Field_eq_dec h f) as [Ef | Hf];
    destruct (Field_eq_dec h g) as [Eg | Hg];
    try congruence; try subst h;
    repeat first
      [ rewrite field_accept_same
      | rewrite field_accept_other by congruence ];
    reflexivity.
Qed.

(** X12. The last acceptable value wins: after two messages for the same
    field, the field holds the second value when that is in range, else
    the first when that is in range, else what it held before; and
    [lastUpdate] is the arrival time of the message whose value is kept. *)
Theorem last_message_wins (f : Field) (r1 r2 : string) (t1 t2 : Z)
    (sd : SensorData) :
  let sd2 :=
    parseArduinoData t2 (prefix_of f ++ r2)
      (parseArduinoData t1 (prefix_of f ++ r1) sd) in
  field f sd2 =
    (if in_range f (toInt r2) then toInt r2
     else if in_range f (toInt r1) then toInt r1 else field f sd) /\
  lastUpdate sd2 =
    (if in_range f (toInt r2) then t2
     else if in_range f (toInt r1) then t1 else lastUpdate sd).
Proof.
  intros sd2. subst sd2. rewrite !parse_prefixed.
  destruct (in_range f (toInt r2)), (in_range f (toInt r1));
    rewrite ?field_accept_same; split; reflexivity.
Qed.

(** X13. [lastUpdate] is the arrival time of the most recent accepted
    message: over any sequence of messages it ends at the clock reading of
    the last one the parser accepted, and where it started when none was
    accepted; unknown and out-of-range messages never refresh it. *)
Theorem lastUpdate_is_last_acceptance (msgs : list (Z * string))
    (sd : SensorData) :
  lastUpdate (process msgs sd) = last_accept_time (lastUpdate sd) msgs.
Proof.
  unfold process, last_accept_time. revert sd.
  induction msgs as [| [now data] msgs IH]; intros sd; [reflexivity|].
  cbn [fold_left fst snd]. rewrite IH. f_equal.
  destruct (parse_accepts now data sd) as [Ha Hr].
  destruct (accepts data); [now apply Ha | now rewrite Hr].
Qed.

(** X14. What the exporter prints reads back: the decimal text of any
    32-bit value converts to that value, so sending a field's exported
    number back under the field's prefix leaves all six fields as they
    are when the value is in range. *)
Theorem export_number_reparses (f : Field) (n now : Z) (sd : SensorData)
    (g : Field) :
  LONG_MIN <= n <= LONG_MAX ->
  toInt (Json.number n) = n /\
  (in_range f (field f sd) = true ->
   field g
     (parseArduinoData now (prefix_of f ++ Json.number (field f sd)) sd) =
   field g sd).
Proof.
  intros Hn.
  assert (T : forall z, toInt (Json.number z) = saturate z).
  { intros z. now rewrite <- literal_of_Z_text, toInt_literal,
      literal_of_Z_value. }
  split.
  - rewrite T. unfold saturate, LONG_MIN, LONG_MAX in *.
    destruct (Z.ltb_spec n (-2147483648)); [lia|].
    destruct (Z.ltb_spec 2147483647 n); [lia | reflexivity].
  - intros R. rewrite parse_prefixed, T, in_range_saturate, R.
    rewrite (saturate_in_range f _ R).
    destruct (Field_eq_dec g f) as [-> | Hne].
    + apply field_accept_same.
    + now apply field_accept_other.
Qed.

(** X15. End to end: whatever bytes have arrived since start-up, an
    export answers 200 with, under each field's key, a value that is 0 or
    within that field's range. *)
Theorem export_after_ingest (avail : list (Z * byte)) (now : Z)
    (f : Field) :
  let w := fst (readArduinoData avail world0) in
  let r := snd (handleData now w) in
  code r = 200 /\
  content r = Json.serializeJson (snapshotDoc now (sensorData w)) /\
  exists v,
    Json.get (snapshotDoc now (sensorData w)) (json_key f) = Some v /\
    (v = 0 \/ in_range f v = true).
Proof.
  intros w r. subst r. repeat split.
  exists (field f (sensorData w)). split.
  - now destruct f.
  - subst w.
    destruct (read_store_is_process avail world0) as (ts & _ & _ & ->).
    change (sensorData world0) with sensorData0.
    destruct (store_ok_process
                (combine ts (snd (readArduinoData avail world0))) f)
      as [H0 | (t & rest & _ & _ & Hr)]; [now left | now right].
Qed.

(** * Properties of loop *)

Lemma ulong_diff (T0 T1 : Z) :
  0 <= T1 - T0 < 2 ^ 32 -> ulong (ulong T1 - ulong T0) = T1 - T0.
Proof.
  intros H. unfold ulong.
  rewrite Zminus_mod_idemp_l, Zminus_mod_idemp_r.
  now apply Z.mod_small.
Qed.

Lemma loop_reads (p : Poll) (s : Sketch) :
  world (fst (loop p s)) = fst (readArduinoData (incoming p) (world s)) /\
  messages (snd (loop p s)) = snd (readArduinoData (incoming p) (world s)).
Proof.
  unfold loop, handleData, debugBlock.
  destruct (data_request p);
    destruct (readArduinoData (incoming p) (world s)) as [w2 ms];
    destruct (debug_clock p) as [[t1 t2] t3];
    cbn [lastSerialCheck world];
    destruct (_ >? 5000); cbn; auto.
Qed.

(** X16. The debug line is throttled by elapsed time, right across the
    wrap-around of the 32-bit millisecond counter: when the true time
    since the last line is below 2^32 ms, a line is printed exactly when
    more than 5000 ms have passed, [lastSerialCheck] is then set to the
    second clock reading, and otherwise nothing changes; the reader's
    world is never touched. *)
Theorem debug_throttle_wrap_safe (T0 T1 t2 t3 pending : Z) (s : Sketch) :
  lastSerialCheck s = ulong T0 -> 0 <= T1 - T0 < 2 ^ 32 ->
  let r := debugBlock (ulong T1) t2 t3 pending s in
  (snd r <> None <-> 5000 < T1 - T0) /\
  (5000 < T1 - T0 -> lastSerialCheck (fst r) = t2) /\
  (T1 - T0 <= 5000 -> r = (s, None)) /\
  world (fst r) = world s.
Proof.
  intros Hs HT r. subst r. unfold debugBlock.
  rewrite Hs, (ulong_diff T0 T1 HT).
  destruct (Z.gtb_spec (T1 - T0) 5000); cbn [fst snd lastSerialCheck world];
    repeat split; intros; try lia; try reflexivity; try discriminate;
    try congruence.
Qed.

(** X17. The age printed in a debug line is the true time since the last
    accepted update, in whole seconds, also across the wrap-around of the
    counter, as long as that time is below 2^32 ms; the other number is
    the count of bytes waiting on the UART. *)
Theorem staleness_report (Tu T3 t1 t2 pending : Z) (s : Sketch)
    (line : DebugLine) :
  lastUpdate (sensorData (world s)) = ulong Tu ->
  0 <= T3 - Tu < 2 ^ 32 ->
  snd (debugBlock t1 t2 (ulong T3) pending s) = Some line ->
  seconds_ago line = (T3 - Tu) / 1000 /\
  serial_available line = pending.
Proof.
  intros Hu HT. unfold debugBlock.
  destruct (_ >? 5000); cbn [snd]; [|discriminate].
  intros [= <-]. cbn [seconds_ago serial_available].
  now rewrite Hu, (ulong_diff Tu T3 HT).
Qed.

(** X18. Over any number of iterations of [loop], exports and debug lines
    leave ingestion alone, and it does not matter how the bytes are spread
    over the iterations: the world ends as one reading of all the bytes
    in a row leaves it, and the messages handed over are the same. *)
Theorem polls_compose (polls : list Poll) (s : Sketch) :
  world (fst (run polls s)) =
    fst (readArduinoData (List.concat (map incoming polls)) (world s)) /\
  List.concat (map messages (snd (run polls s))) =
    snd (readArduinoData (List.concat (map incoming polls)) (world s)).
Proof.
  revert s. induction polls as [|p polls IH]; intros s.
  - cbn. auto.
  - cbn [run map List.concat].
    destruct (loop_reads p s) as [Hw Hm].
    destruct (loop p s) as [s1 o]. cbn [fst snd] in Hw, Hm.
    destruct (IH s1) as [IHw IHm].
    destruct (run polls s1) as [s2 os]. cbn [fst snd] in *.
    rewrite readArduinoData_app. cbn [fst snd map List.concat].
    rewrite <- Hw, <- Hm, IHw, IHm. auto.
Qed.

(** * What the reader never does *)

Lemma leading_ff_nonneg (l : list (Z * byte)) : 0 <= leading_ff l.
Proof.
  induction l as [| [t b] l IH]; cbn [leading_ff]; [lia|].
  destruct (is_xFF b); lia.
Qed.

Lemma leading_ff_two (l : list (Z * byte)) :
  2 <= leading_ff l ->
  exists ta tb r0, l = (ta, xFF) :: (tb, xFF) :: r0.
Proof.
  destruct l as [| [ta a] [| [tb b] r0]]; cbn [leading_ff].
  - lia.
  - destruct (is_xFF a); lia.
  - destruct (is_xFF a) eqn:Ea; [|lia].
    destruct (is_xFF b) eqn:Eb; [|lia].
    apply xFF_iff in Ea, Eb. subst. intros _. now exists ta, tb, r0.
Qed.

Lemma readByte_quiet (now : Z) (b : byte) (w : World) :
  ffCount w + 1 < 3 \/ b <> xFF ->
  snd (readByte now b w) = None /\
  ffCount (fst (readByte now b w)) <=
    (if is_xFF b then Z.max 0 (ffCount w + 1) else 0).
Proof.
  intros H. destruct (is_xFF b) eqn:E.
  - pose proof E as E'. apply xFF_iff in E'. subst b.
    destruct H as [H | H]; [|congruence].
    rewrite readByte_delim_count by assumption. cbn [fst snd].
    split; [reflexivity|]. unfold overflowCheck.
    destruct (_ >? 100); cbn [ffCount]; lia.
  - apply is_xFF_false in E.
    destruct (printable b) eqn:P.
    + rewrite readByte_printable by assumption. cbn [fst snd].
      split; [reflexivity|]. unfold overflowCheck.
      destruct (_ >? 100); cbn [ffCount]; lia.
    + rewrite readByte_noise by assumption. cbn [fst snd].
      split; [reflexivity|]. unfold overflowCheck.
      destruct (_ >? 100); cbn [ffCount]; lia.
Qed.

Lemma emission_needs_terminator (avail rpre : list (Z * byte)) (w : World) :
  ffCount w <= leading_ff rpre ->
  snd (readArduinoData avail w) <> [] ->
  has_terminator (rev rpre ++ avail).
Proof.
  revert rpre w. induction avail as [| [now x] avail IH]; intros rpre w Hc He.
  - now elim He.
  - destruct (Z.ltb_spec (ffCount w + 1) 3) as [Hlt | Hge].
    + cbn [readArduinoData] in He.
      destruct (readByte_quiet now x w (or_introl Hlt)) as [Hn Hc'].
      destruct (readByte now x w) as [w1 m]. cbn [fst snd] in Hn, Hc'.
      subst m.
      specialize (IH ((now, x) :: rpre) w1).
      destruct (readArduinoData avail w1) as [w2 ms]. cbn [snd] in IH, He.
      cbn [rev] in IH. rewrite <- app_assoc in IH. apply IH; trivial.
      cbn [leading_ff]. pose proof (leading_ff_nonneg rpre).
      destruct (is_xFF x); lia.
    + destruct (is_xFF x) eqn:E.
      * apply xFF_iff in E. subst x.
        destruct (leading_ff_two rpre) as (ta & tb & r0 & ->); [lia|].
        exists (rev r0), tb, ta, now, avail.
        cbn [rev]. now rewrite <- !app_assoc.
      * cbn [readArduinoData] in He.
        destruct (readByte_quiet now x w
                    (or_intror (is_xFF_false x E))) as [Hn Hc'].
        rewrite E in Hc'.
        destruct (readByte now x w) as [w1 m]. cbn [fst snd] in Hn, Hc'.
        subst m.
        specialize (IH ((now, x) :: rpre) w1).
        destruct (readArduinoData avail w1) as [w2 ms]. cbn [snd] in IH, He.
        cbn [rev] in IH. rewrite <- app_assoc in IH. apply IH; trivial.
        cbn [leading_ff]. rewrite E. exact Hc'.
Qed.

(** X19. No message without a terminator: starting with the delimiter
    counter at 0, the reader hands a message to the parser, and so the
    store changes, only if the bytes contain three 0xFF in a row;
    overflow, noise and one or two delimiters never produce one. *)
Theorem no_message_without_terminator (avail : list (Z * byte))
    (w : World) :
  ffCount w <= 0 ->
  ~ has_terminator avail ->
  snd (readArduinoData avail w) = [] /\
  sensorData (fst (readArduinoData avail w)) = sensorData w.
Proof.
  intros Hc Hn.
  assert (E : snd (readArduinoData avail w) = []).
  { destruct (snd (readArduinoData avail w)) eqn:S; [reflexivity|].
    elim Hn. apply (emission_needs_terminator avail [] w); [exact Hc|].
    rewrite S. discriminate. }
  split; [exact E|].
  destruct (read_store_is_process avail w) as (ts & _ & _ & ->).
  rewrite E. now destruct ts.
Qed.

(** ** The further theorems at concrete inputs *)

Lemma emitted_messages_wellformed_witness :
  let avail :=
    at_time 5 (bytes_of "hum" ++ [Byte.x00; Byte.x80] ++
               bytes_of "V.val=40" ++ [xFF; xFF; xFF]) in
  Forall (fun m => m <> "" /\ strlen m <= 100 /\ all_printable m = true)
         (snd (readArduinoData avail world0)).
Proof.
  intros avail.
  assert (L : strlen (serialBuffer world0) <= 100)
    by (vm_compute; discriminate).
  exact (proj1 (emitted_messages_wellformed avail world0 eq_refl L)).
Defined.

Lemma noisy_frame_reassembled_witness :
  readArduinoData
    (at_time 5 (bytes_of "hum" ++ [Byte.x00; Byte.x80] ++
                bytes_of "V.val=40") ++ [(6, xFF); (7, xFF); (8, xFF)])
    world0 =
  ({| sensorData := accept HUM 40 8 sensorData0; serialBuffer := "";
      ffCount := 0 |}, ["humV.val=40"]).
Proof.
  assert (N : text_of
                (filter printable
                   (map snd
                      (at_time 5
                         (bytes_of "hum" ++ [Byte.x00; Byte.x80] ++
                          bytes_of "V.val=40")))) <> "") by discriminate.
  assert (L : strlen
                (text_of
                   (filter printable
                      (map snd
                         (at_time 5
                            (bytes_of "hum" ++ [Byte.x00; Byte.x80] ++
                             bytes_of "V.val=40"))))) <= 100)
    by (vm_compute; discriminate).
  exact (noisy_frame_reassembled
           (at_time 5 (bytes_of "hum" ++ [Byte.x00; Byte.x80] ++
                       bytes_of "V.val=40")) 6 7 8 world0
           eq_refl eq_refl N L).
Defined.

Lemma frame_round_trip_witness :
  readArduinoData (frame 9 "o3V.val=12") world0 =
  ({| sensorData := accept O3 12 9 sensorData0; serialBuffer := "";
      ffCount := 0 |}, ["o3V.val=12"]).
Proof.
  exact (frame_round_trip 9 "o3V.val=12" world0 eq_refl eq_refl).
Defined.

Lemma stream_of_frames_witness :
  readArduinoData
    (frame 1 "co2V.val=600" ++ frame 2 "foo" ++ frame 3 "tempV.val=-7")
    world0 =
  ({| sensorData := accept TEMP (-7) 3 (accept CO2 600 1 sensorData0);
      serialBuffer := ""; ffCount := 0 |},
   ["co2V.val=600"; "foo"; "tempV.val=-7"]).
Proof.
  exact (stream_of_frames
           [(1, "co2V.val=600"); (2, "foo"); (3, "tempV.val=-7")]
           world0 eq_refl eq_refl).
Defined.

Lemma delimiter_run_idle_witness :
  readArduinoData (at_time 4 (repeat xFF 7)) world0 =
  ({| sensorData := sensorData0; serialBuffer := ""; ffCount := 1 |}, []).
Proof.
  assert (F : Forall (fun x : Z * byte => snd x = xFF)
                (at_time 4 (repeat xFF 7)))
    by (repeat constructor).
  assert (C : 0 <= ffCount world0 <= 2)
    by (split; vm_compute; discriminate).
  exact (delimiter_run_idle (at_time 4 (repeat xFF 7)) world0 F eq_refl C).
Defined.

Lemma oversized_message_truncated_witness :
  readArduinoData
    (at_time 2 (repeat Byte.x41 100) ++
     (2, Byte.x42) :: at_time 2 (bytes_of "humV.val=40") ++
     [(3, xFF); (3, xFF); (3, xFF)]) world0 =
  ({| sensorData := accept HUM 40 3 sensorData0; serialBuffer := "";
      ffCount := 0 |}, ["humV.val=40"]).
Proof.
  assert (L : (List.length (at_time 2 (bytes_of "humV.val=40")) <= 100)%nat)
    by (vm_compute; repeat constructor).
  exact (oversized_message_truncated
           (at_time 2 (repeat Byte.x41 100))
           (at_time 2 (bytes_of "humV.val=40")) 2 Byte.x42 3 3 3 world0
           eq_refl L eq_refl eq_refl eq_refl eq_refl).
Defined.

Lemma trailing_text_ignored_witness :
  toInt " 523ppm" = 523 /\
  parseArduinoData 4 "co2V.val= 523ppm" sensorData0 =
  parseArduinoData 4 "co2V.val=523" sensorData0.
Proof.
  exact (trailing_text_ignored CO2 (literal_of_Z 523) " " "ppm" 4
           sensorData0 eq_refl eq_refl).
Defined.

Lemma different_fields_commute_witness :
  field HUM
    (parseArduinoData 2 "tempV.val=21"
       (parseArduinoData 1 "humV.val=40" sensorData0)) =
  field HUM
    (parseArduinoData 4 "humV.val=40"
       (parseArduinoData 3 "tempV.val=21" sensorData0)).
Proof.
  assert (N : HUM <> TEMP) by discriminate.
  exact (different_fields_commute HUM TEMP "40" "21" 1 2 4 3 sensorData0
           HUM N).
Defined.

Lemma export_number_reparses_witness :
  LONG_MIN <= -50 <= LONG_MAX /\ toInt (Json.number (-50)) = -50.
Proof.
  assert (B : LONG_MIN <= -50 <= LONG_MAX)
    by (split; vm_compute; discriminate).
  exact (conj B
           (proj1 (export_number_reparses TEMP (-50) 0 sensorData0 TEMP B))).
Defined.

Lemma debug_throttle_wrap_safe_witness :
  let s := {| world := world0; lastSerialCheck := 4294967000 |} in
  snd (debugBlock 5000 5001 5002 0 s) <> None.
Proof.
  intros s.
  assert (B : 0 <= 4294972296 - 4294967000 < 2 ^ 32)
    by (split; vm_compute; congruence).
  assert (G : 5000 < 4294972296 - 4294967000) by reflexivity.
  exact (proj2
           (proj1 (debug_throttle_wrap_safe 4294967000 4294972296 5001 5002
                     0 s eq_refl B)) G).
Defined.

Lemma staleness_report_witness :
  let s :=
    {| world :=
         {| sensorData := accept CO2 523 4294967000 sensorData0;
            serialBuffer := ""; ffCount := 0 |};
       lastSerialCheck := 0 |} in
  seconds_ago
    {| serial_available := 0; seconds_ago := 12 |} = (4294979296 - 4294967000) / 1000.
Proof.
  intros s.
  assert (B : 0 <= 4294979296 - 4294967000 < 2 ^ 32)
    by (split; vm_compute; congruence).
  exact (proj1
           (staleness_report 4294967000 4294979296 6000 6000 0 s
              {| serial_available := 0; seconds_ago := 12 |}
              eq_refl B eq_refl)).
Defined.

Lemma no_message_without_terminator_witness :
  snd (readArduinoData [(1, Byte.x41); (2, xFF); (3, xFF)] world0) = [].
Proof.
  assert (C : ffCount world0 <= 0) by (vm_compute; discriminate).
  assert (N : ~ has_terminator [(1, Byte.x41); (2, xFF); (3, xFF)]).
  { intros (pre & t1 & t2 & t3 & post & E).
    destruct pre as [|p pre]; [discriminate E|].
    apply (f_equal (@List.length _)) in E. cbn [List.length] in E.
    rewrite length_app in E. cbn [List.length] in E. lia. }
  exact (proj1 (no_message_without_terminator
                  [(1, Byte.x41); (2, xFF); (3, xFF)] world0 C N)).
Defined.
